(** * Letraz front-end: validation schemas and onboarding handlers

  A shallow embedding of the parts of the Letraz web client that carry
  domain logic: the zod schemas of [lib/experience/types.ts], the
  waitlist server action, the Discord announcement route and the
  submit handlers of the onboarding forms.

  JavaScript values are an inductive type with objects as finite maps
  from property names to values; a zod schema is its [parse] function,
  returning [None] where zod raises a [ZodError]; handlers run in a
  small state-and-exception monad over the observable world (router,
  toasts, lists held in React state, requests sent). *)

From Stdlib Require Import ZArith QArith Bool Ascii.
From stdpp Require Import gmap strings list.

Open Scope Z_scope.

(** ** JavaScript values *)

Module JS.

(** A JavaScript number: a double is NaN, an infinity, or a finite
    value, and every finite double is a rational. *)
Inductive number :=
| NaN
| Infinity (negative : bool)
| Finite (q : Q).

#[warnings="-register-all"] Inductive value :=
| Undefined
| Null
| Bool (b : bool)
| Num (n : number)
| Str (s : string)
| Arr (l : list value)
| Obj (o : gmap string value).

Definition of_int (z : Z) : value := Num (Finite (inject_Z z)).

(** [Number.isInteger] *)
Definition isInteger (n : number) : bool :=
  match n with
  | Finite q => (Qnum q mod Zpos (Qden q) =? 0)
  | _ => false
  end.

(** The integer a number denotes, when it is one. *)
Definition as_integer (n : number) : option Z :=
  match n with
  | Finite q =>
      if (Qnum q mod Zpos (Qden q) =? 0) then Some (Qnum q / Zpos (Qden q)) else None
  | _ => None
  end.

(** [lo <= n] and [n <= hi] on numbers, against an integer bound;
    every comparison with NaN is false. *)
Definition ge_int (n : number) (lo : Z) : bool :=
  match n with
  | NaN => false
  | Infinity neg => negb neg
  | Finite q => Qle_bool (inject_Z lo) q
  end.

Definition le_int (n : number) (hi : Z) : bool :=
  match n with
  | NaN => false
  | Infinity neg => neg
  | Finite q => Qle_bool q (inject_Z hi)
  end.

(** The [.length] of a JavaScript string is its number of UTF-16 code
    units. A string is held here by the bytes of its UTF-8 encoding:
    a continuation byte adds nothing, the lead byte of a four-byte
    sequence (a code point beyond the basic plane, a surrogate pair in
    JavaScript) counts for two units, and any other byte for one. *)
Definition code_units (c : ascii) : nat :=
  let n := nat_of_ascii c in
  if (n <? 128)%nat then 1%nat
  else if (n <? 192)%nat then 0%nat
  else if (n <? 240)%nat then 1%nat
  else 2%nat.

Fixpoint str_length (s : string) : nat :=
  match s with
  | EmptyString => 0%nat
  | String c rest => (code_units c + str_length rest)%nat
  end.

(** Property read [o.k] on an object's own properties: [undefined]
    when the property is absent. *)
Definition get (o : gmap string value) (k : string) : value :=
  default Undefined (o !! k).

Definition is_undefined (v : value) : bool :=
  match v with Undefined => true | _ => false end.

(** Truthiness, as [if (v)] and [v ? a : b] test it. *)
Definition truthy (v : value) : bool :=
  match v with
  | Undefined | Null => false
  | Bool b => b
  | Num NaN => false
  | Num (Infinity _) => true
  | Num (Finite q) => negb (Qnum q =? 0)
  | Str s => negb (String.eqb s "")
  | Arr _ | Obj _ => true
  end.

(** Member access [v.k] on an arbitrary value: a [TypeError] ([None])
    on [undefined] and [null], the own property on an object, and
    [undefined] on the other values (none of the property names read
    by the program is a prototype method). *)
Definition member (v : value) (k : string) : option value :=
  match v with
  | Undefined | Null => None
  | Obj o => Some (get o k)
  | _ => Some Undefined
  end.

End JS.

(** ** The zod combinators used by the schemas *)

Module Zod.
Import JS.

(** A schema is its parser: [Some out] on success, [None] for a
    [ZodError]. *)
Definition schema := value → option value.

Definition accepts (s : schema) (v : value) : Prop := is_Some (s v).

(** [z.string()] followed by its chained checks. *)
Definition string_ (checks : list (string → bool)) : schema :=
  fun v =>
    match v with
    | Str s => if forallb (fun c => c s) checks then Some v else None
    | _ => None
    end.

(** [.max(n)] on a string compares its [.length] with [n]. *)
Definition max_length (n : nat) (s : string) : bool :=
  (str_length s <=? n)%nat.

(** The pattern of zod's [.uuid()] check: hexadecimal digits in groups
    of 8, 4, 4, 4 and 12, separated by dashes. *)
Definition is_hex (c : Ascii.ascii) : bool :=
  let n := Ascii.nat_of_ascii c in
  ((48 <=? n) && (n <=? 57) || (65 <=? n) && (n <=? 70) || (97 <=? n) && (n <=? 102))%nat.

Fixpoint hex_run (n : nat) (s : string) : option string :=
  match n with
  | O => Some s
  | S n' =>
      match s with
      | String c rest => if is_hex c then hex_run n' rest else None
      | EmptyString => None
      end
  end.

Definition dash (s : string) : option string :=
  match s with
  | String c rest => if Ascii.eqb c "-"%char then Some rest else None
  | EmptyString => None
  end.

Fixpoint hex_groups (sizes : list nat) (s : string) : bool :=
  match sizes with
  | [] => false
  | [n] => match hex_run n s with Some EmptyString => true | _ => false end
  | n :: more =>
      match hex_run n s with
      | Some t => match dash t with Some u => hex_groups more u | None => false end
      | None => false
      end
  end.

Definition uuid_pattern : string → bool := hex_groups [8; 4; 4; 4; 12]%nat.

(** [z.number()] followed by its chained checks; NaN is not a number
    for zod. *)
Definition number_ (checks : list (number → bool)) : schema :=
  fun v =>
    match v with
    | Num NaN => None
    | Num n => if forallb (fun c => c n) checks then Some v else None
    | _ => None
    end.

Definition int : number → bool := isInteger.
Definition min (lo : Z) (n : number) : bool := ge_int n lo.
Definition max (hi : Z) (n : number) : bool := le_int n hi.

Definition boolean : schema :=
  fun v => match v with Bool _ => Some v | _ => None end.

(** [z.enum([...])] *)
Definition enum (options : list string) : schema :=
  fun v =>
    match v with
    | Str s => if bool_decide (s ∈ options) then Some v else None
    | _ => None
    end.

Definition nullable (s : schema) : schema :=
  fun v => match v with Null => Some Null | _ => s v end.

Definition optional (s : schema) : schema :=
  fun v => match v with Undefined => Some Undefined | _ => s v end.

(** [.nullish()] is [.nullable().optional()]. *)
Definition nullish (s : schema) : schema := optional (nullable s).

(** [.readonly()] freezes the parsed output and validates nothing. *)
Definition readonly (s : schema) : schema := s.

(** The shape of a [z.object]: its keys with their schemas. *)
Definition shape := list (string * schema).

(** Parsing the fields of a shape against the properties of an input
    object. A key is missing from the input when its read gives
    [undefined]; the output carries a key when the input had it or
    its parsed value is defined; unknown input keys are stripped. *)
Fixpoint parse_fields (sh : shape) (o : gmap string value) : option (gmap string value) :=
  match sh with
  | [] => Some ∅
  | (k, s) :: rest =>
      match s (get o k) with
      | None => None
      | Some r =>
          match parse_fields rest o with
          | None => None
          | Some out =>
              Some (if bool_decide (is_Some (o !! k)) || negb (is_undefined r)
                    then <[k := r]> out else out)
          end
      end
  end.

(** [z.object(shape)]: only plain objects are accepted. *)
Definition object (sh : shape) : schema :=
  fun v =>
    match v with
    | Obj o => Obj <$> parse_fields sh o
    | _ => None
    end.

(** [.omit({k: true, ...})] *)
Definition omit (keys : list string) (sh : shape) : shape :=
  filter (fun kv => kv.1 ∉ keys) sh.

(** [.extend(aug)]: the keys of [aug] replace those of the shape. *)
Definition extend (aug : shape) (sh : shape) : shape :=
  omit (aug.*1) sh ++ aug.

Definition field (k : string) (sh : shape) : option schema :=
  snd <$> List.find (fun kv => String.eqb kv.1 k) sh.

End Zod.

(** ** lib/experience/types.ts *)

Module Experience.
Import JS Zod.

(** The pattern [/^[A-Z]{3}$/] of the country code. *)
Definition is_upper (c : Ascii.ascii) : bool :=
  (65 <=? Ascii.nat_of_ascii c)%nat && (Ascii.nat_of_ascii c <=? 90)%nat.

Definition country_code (s : string) : bool :=
  match s with
  | String a (String b (String c EmptyString)) => is_upper a && is_upper b && is_upper c
  | _ => false
  end.

Section Schemas.

(** [new Date().getFullYear()], read once when the module is loaded. *)
Variable current_year : Z.

(** The pattern behind zod's [.uuid()] check. *)
Variable uuid : string → bool.

(** Base schema for Experience ([.describe] only attaches text). *)
Definition ExperienceSchema : shape :=
  [ ("id", readonly (string_ [uuid]));
    ("user", string_ []);
    ("resume_section", string_ [uuid]);
    ("company_name", string_ [max_length 250]);
    ("job_title", string_ [max_length 250]);
    ("country", readonly (object [ ("code", string_ [country_code]); ("name", string_ []) ]));
    ("city", optional (nullable (string_ [max_length 50])));
    ("employment_type", string_ []);
    ("started_from_month", optional (nullable (number_ [int; min 1; max 12])));
    ("started_from_year", optional (nullable (number_ [int; min 1947; max current_year])));
    ("finished_at_month", optional (nullable (number_ [int; min 1; max 12])));
    ("finished_at_year", optional (nullable (number_ [int; min 1947; max current_year])));
    ("current", boolean);
    ("description", optional (nullable (string_ [max_length 3000])));
    ("created_at", readonly (string_ []));
    ("updated_at", readonly (string_ [])) ].

(** The codes of [z.enum] in the mutation schema. *)
Definition employment_codes : list string :=
  ["flt"; "prt"; "con"; "int"; "fre"; "sel"; "vol"; "tra"].

(** Schema for ExperienceMutation: the base schema without its
    read-only fields, with the listed fields redeclared. *)
Definition ExperienceMutationSchema : shape :=
  extend
    [ ("employment_type", enum employment_codes);
      ("country", string_ [country_code]);
      ("started_from_month", nullish (string_ []));
      ("started_from_year", nullish (string_ []));
      ("finished_at_month", nullish (string_ []));
      ("finished_at_year", nullish (string_ [])) ]
    (omit
       [ "id"; "user"; "resume_section"; "employment_type"; "country";
         "started_from_month"; "started_from_year"; "finished_at_month";
         "finished_at_year"; "created_at"; "updated_at" ]
       ExperienceSchema).

End Schemas.

(** Employment types offered by the form. *)
Record choice := { label : string; value_ : string }.

Definition employmentTypes : list choice :=
  [ {| label := "Full-time"; value_ := "flt" |};
    {| label := "Part-time"; value_ := "prt" |};
    {| label := "Contract"; value_ := "con" |};
    {| label := "Internship"; value_ := "int" |};
    {| label := "Freelance"; value_ := "fre" |};
    {| label := "Self-employed"; value_ := "sel" |};
    {| label := "Volunteer"; value_ := "vol" |};
    {| label := "Trainee"; value_ := "tra" |} ].

(** A date part within [lo, hi]: absent, null, or an integer in range. *)
Definition date_part (lo hi : Z) (v : value) : Prop :=
  v = Undefined ∨ v = Null ∨
  ∃ n z, v = Num n ∧ as_integer n = Some z ∧ lo ≤ z ≤ hi.

(** What [z.string().nullish()] admits: absent, null, or any string. *)
Definition nullish_string (v : value) : Prop :=
  v = Undefined ∨ v = Null ∨ ∃ s, v = Str s.

Definition date_part_keys : list string :=
  ["started_from_month"; "started_from_year"; "finished_at_month"; "finished_at_year"].

Definition date_parts (current_year : Z) (o : gmap string value) : Prop :=
  date_part 1 12 (get o "started_from_month") ∧
  date_part 1947 current_year (get o "started_from_year") ∧
  date_part 1 12 (get o "finished_at_month") ∧
  date_part 1947 current_year (get o "finished_at_year").

End Experience.

(** ** Handlers: observable world and control flow *)

Module Eff.
Import JS.

(** The collaborators a handler calls: the server actions, [fetch]
    on a URL, the mail client and the blog's post reader. *)
Inductive target :=
| AddOrUpdateUserInfoToDB
| AddEducationToDB
| Fetch (url : string)
| ResendEmailsSend
| GetPosts.

(** What a handler does to the outside: navigation, notifications,
    the form, calls to collaborators and the console. *)
Inductive effect :=
| Push (href : string)
| ToastError (message : string)
| FormReset
| SetEducations (l : list value)
| SetExperiences (l : list value)
| Call (to : target) (payload : value)
| Log (v : value).

(** The React state the forms share with their parent, whether the
    form was edited, and the effects so far, oldest first. *)
Record World := mkWorld {
  educations : list value;
  experiences : list value;
  isDirty : bool;
  trace : list effect
}.

Definition emit (e : effect) (w : World) : World :=
  mkWorld (educations w) (experiences w) (isDirty w) (trace w ++ [e]).

Definition with_educations (l : list value) (w : World) : World :=
  mkWorld l (experiences w) (isDirty w) (trace w).

Definition with_experiences (l : list value) (w : World) : World :=
  mkWorld (educations w) l (isDirty w) (trace w).

Definition with_isDirty (b : bool) (w : World) : World :=
  mkWorld (educations w) (experiences w) b (trace w).

(** A settled promise. *)
Inductive promise (A : Type) :=
| Resolved (a : A)
| Rejected (reason : value).
Arguments Resolved {A} a.
Arguments Rejected {A} reason.

(** The result of running a piece of code: a value or an exception. *)
Inductive outcome (A : Type) :=
| Return (a : A)
| Throw (e : value).
Arguments Return {A} a.
Arguments Throw {A} e.

Definition M (A : Type) : Type := World → outcome A * World.

#[export] Instance M_ret : MRet M := fun A a w => (Return a, w).

#[export] Instance M_bind : MBind M := fun A B f m w =>
  match m w with
  | (Return a, w') => f a w'
  | (Throw e, w') => (Throw e, w')
  end.

Definition throw {A} (e : value) : M A := fun w => (Throw e, w).

(** [try { body } catch (error) { handler }] *)
Definition try_catch {A} (body : M A) (handler : value → M A) : M A :=
  fun w =>
    match body w with
    | (Return a, w') => (Return a, w')
    | (Throw e, w') => handler e w'
    end.

Definition perform (e : effect) : M unit := fun w => (Return (), emit e w).

(** [await] of a call to a collaborator: the call is recorded, a
    rejection becomes an exception. *)
Definition await_call {A} (to : target) (reply : value → promise A) (payload : value) : M A :=
  fun w =>
    (match reply payload with Resolved a => Return a | Rejected e => Throw e end,
     emit (Call to payload) w).

(** A partial operation that raises [e] when it has no result. *)
Definition or_throw {A} (e : value) (o : option A) : M A :=
  match o with Some a => mret a | None => throw e end.

Definition Error (message : string) : value := Obj {[ "message" := Str message ]}.
Definition TypeError : value := Error "TypeError".
Definition ZodError : value := Error "ZodError".

(** [{...v}] *)
Definition spread (v : value) : gmap string value :=
  match v with Obj o => o | _ => ∅ end.

Definition toasts (t : list effect) : list string :=
  omap (fun e => match e with ToastError m => Some m | _ => None end) t.

Definition pushes (t : list effect) : list string :=
  omap (fun e => match e with Push h => Some h | _ => None end) t.

Definition calls (t : list effect) : list (target * value) :=
  omap (fun e => match e with Call n p => Some (n, p) | _ => None end) t.

(** The requests sent with [fetch] and the mails handed to the mail
    client. *)
Definition fetches (t : list effect) : list (string * value) :=
  omap (fun e => match e with Call (Fetch url) p => Some (url, p) | _ => None end) t.

Definition mails (t : list effect) : list value :=
  omap (fun e => match e with Call ResendEmailsSend p => Some p | _ => None end) t.

(** The lists handed to [setEducations] and [setExperiences]. *)
Definition updates (t : list effect) : list (list value) :=
  omap (fun e => match e with
                 | SetEducations l | SetExperiences l => Some l
                 | _ => None
                 end) t.

Definition resets (t : list effect) : nat :=
  length (omap (fun e => match e with FormReset => Some () | _ => None end) t).

(** [router.push], [toast.error], [form.reset], [console.log] *)
Definition router_push (href : string) : M unit := perform (Push href).
Definition toast_error (message : string) : M unit := perform (ToastError message).
Definition form_reset : M unit :=
  fun w => (Return (), with_isDirty false (emit FormReset w)).
Definition console_log (v : value) : M unit := perform (Log v).

(** [form.formState.isDirty] *)
Definition formState_isDirty : M bool := fun w => (Return (isDirty w), w).

(** react-hook-form's [form.handleSubmit(handler)] with a zod resolver:
    the handler runs on the parsed values when the schema accepts the
    form's input, and not at all otherwise. *)
Definition handleSubmit (resolver : value → option value) (handler : value → M unit) (input : value) : M unit :=
  match resolver input with
  | Some values => handler values
  | None => mret ()
  end.

End Eff.

(** ** components/onboarding/PersonalDetailsForm.tsx *)

Module PersonalDetailsForm.
Import JS Zod Eff.

Section Component.

(** [UserInfoMutationSchema] of lib/user-info/types, the form's
    resolver, and the server action the form submits to. *)
Variable UserInfoMutationSchema : schema.
Variable addOrUpdateUserInfoToDB : value → promise value.

(** Submits the user's profile details to the backend. *)
Definition onSubmit (values : value) : M unit :=
  try_catch
    (_ ← await_call AddOrUpdateUserInfoToDB addOrUpdateUserInfoToDB (Obj (spread values));
     router_push "/app/onboarding?step=education")
    (fun error => toast_error "Failed to update information, please try again").

(** [<form onSubmit={form.handleSubmit(onSubmit)}>] *)
Definition submit : value → M unit :=
  handleSubmit UserInfoMutationSchema onSubmit.

End Component.
End PersonalDetailsForm.

(** ** The education form of the onboarding wizard *)

Module EducationForm.
Import JS Zod Eff.

(** The schema of the education form. *)
Definition educationFormSchema : shape :=
  [ ("id", optional (string_ []));
    ("institution_name", optional (string_ [max_length 100]));
    ("country", optional (string_ []));
    ("field_of_study", optional (string_ []));
    ("degree", optional (string_ []));
    ("started_from_month", optional (string_ []));
    ("started_from_year", optional (string_ []));
    ("finished_at_month", optional (string_ []));
    ("finished_at_year", optional (string_ []));
    ("current", optional boolean);
    ("description", optional (string_ [])) ].

(** [l.findIndex((x) => x === v)], [-1] when nothing matches. *)
Fixpoint findIndex (l : list string) (v : value) : Z :=
  match l with
  | [] => -1
  | x :: rest =>
      match v with
      | Str s => if String.eqb x s then 0 else
                   let i := findIndex rest v in if i =? -1 then -1 else i + 1
      | _ => -1
      end
  end.

Section Component.

(** [months] of the constants module, the global [parseInt], and the
    server action that inserts an education. *)
Variable months : list string.
Variable parseInt : value → number.
Variable addEducationToDB : value → promise value.

Definition month_of (v : value) : value :=
  if truthy v then of_int (findIndex months v + 1) else Null.

Definition year_of (v : value) : value :=
  if truthy v then Num (parseInt v) else Null.

(** The record [insertEducation] sends: the form values with the date
    parts converted and [current] derived. *)
Definition education_of_form (values : value) : value :=
  let o := spread values in
  Obj (<[ "current" := Bool (negb (truthy (get o "finished_at_year"))) ]>
      (<[ "finished_at_year" := year_of (get o "finished_at_year") ]>
      (<[ "finished_at_month" := month_of (get o "finished_at_month") ]>
      (<[ "started_from_year" := year_of (get o "started_from_year") ]>
      (<[ "started_from_month" := month_of (get o "started_from_month") ]> o))))).

(** Inserts the education details into the database. *)
Definition insertEducation (values : value) : M value :=
  await_call AddEducationToDB addEducationToDB (education_of_form values).

(** [setEducations] of the props. *)
Definition setEducations (l : list value) : M unit :=
  fun w => (Return (), with_educations l (emit (SetEducations l) w)).

(** Handles form submission; [educations] is the list in the props. *)
Definition onSubmit (educations : list value) (values : value) : M unit :=
  try_catch
    (newEducation ← insertEducation values;
     if truthy newEducation then
       _ ← setEducations (educations ++ [newEducation]);
       form_reset
     else
       throw (Error "Failed to add education"))
    (fun error => toast_error "Failed to add education, please try again").

(** Handles form submission with redirect to the next step. *)
Definition submitWithRedirect (values : value) : M unit :=
  try_catch
    (dirty ← formState_isDirty;
     _ ← (if dirty : bool then _ ← insertEducation values; mret () else mret ());
     router_push "/app/onboarding?step=experience")
    (fun error => toast_error "Failed to update education, please try again").

(** The two buttons of the form, each behind [form.handleSubmit]. *)
Definition submit : value → M unit :=
  fun input w => handleSubmit (object educationFormSchema) (onSubmit (educations w)) input w.

Definition submitAndContinue : value → M unit :=
  handleSubmit (object educationFormSchema) submitWithRedirect.

End Component.
End EducationForm.

(** ** The experience form of the onboarding wizard *)

Module ExperienceForm.
Import JS Zod Eff.

Definition experienceFormSchema : shape :=
  [ ("companyName", optional (string_ [max_length 100]));
    ("country", optional (string_ []));
    ("jobTitle", optional (string_ []));
    ("city", optional (string_ []));
    ("startedFromMonth", optional (string_ []));
    ("startedFromYear", optional (string_ []));
    ("finishedAtMonth", optional (string_ []));
    ("finishedAtYear", optional (string_ []));
    ("current", optional boolean);
    ("description", optional (string_ [])) ].

(** [setExperiences] of the props. *)
Definition setExperiences (l : list value) : M unit :=
  fun w => (Return (), with_experiences l (emit (SetExperiences l) w)).

Definition onSubmit (experiences : list value) (values : value) : M unit :=
  _ ← setExperiences (experiences ++ [values]);
  form_reset.

Definition submitWithRedirect (values : value) : M unit :=
  router_push "/app/onboarding?step=resume".

Definition submit : value → M unit :=
  fun input w => handleSubmit (object experienceFormSchema) (onSubmit (experiences w)) input w.

End ExperienceForm.

(** ** The waitlist server action *)

Module Waitlist.
Import JS Zod Eff.

(** What the program reads of a [fetch] response: [ok], and the body
    as [response.json()] parses it ([None] when it is not JSON). *)
Record Response := mkResponse { ok : bool; body : option value }.

Section Action.

(** [WaitlistMutationSchema] of lib/waitlist/types (an object schema,
    given by its shape), the environment's [API_URL], [fetch] and the
    mail client's [resend.emails.send]. *)
Variable WaitlistMutationSchema : shape.
Variable API_URL : string.
Variable fetch : value → promise Response.
Variable resend_emails_send : value → promise value.

(** [Schema.parse(v)]: the parsed value, or a thrown [ZodError]. *)
Definition parse (sh : shape) (v : value) : M value :=
  or_throw ZodError (object sh v).

(** [await response.json()] *)
Definition json (r : Response) : M value :=
  or_throw (Error "SyntaxError") (body r).

(** [v.k], a [TypeError] on [undefined] and [null]. *)
Definition dot (v : value) (k : string) : M value :=
  or_throw TypeError (member v k).

(** The object literals of the action: [{email, referrer}], the
    [fetch] options with the parameters as body, and the welcome mail
    (headers, sender and template are constants nothing reads back). *)
Definition signup_input (email : string) (referrer : value) : value :=
  Obj (<[ "referrer" := referrer ]> {[ "email" := Str email ]}).

Definition signup_request (params : value) : value :=
  Obj (<[ "body" := Obj (spread params) ]> {[ "method" := Str "POST" ]}).

Definition welcome_mail (to : value) : value :=
  Obj (<[ "subject" := Str "Welcome to Letraz waitlist!" ]> {[ "to" := to ]}).

Definition signUpForWaitlist (email : string) (referrer : value) : M value :=
  params ← parse WaitlistMutationSchema (signup_input email referrer);
  response ← await_call (Fetch (API_URL +:+ "/waitlist/")) fetch (signup_request params);
  if negb (ok response) then
    _ ← console_log (Str "DUPLICATE ENTRY");
    data ← json response;
    error ← dot data "error";
    details ← dot error "details";
    _ ← console_log details;
    mret params
  else
    to ← dot params "email";
    _ ← await_call ResendEmailsSend resend_emails_send (welcome_mail to);
    data ← json response;
    parse WaitlistMutationSchema data.

End Action.
End Waitlist.

(** ** The Discord announcement route *)

Module Announcement.
Import JS Zod Eff Waitlist.

Section Route.

(** [getPosts] of lib/posts.method (called without arguments),
    [discordBlogUrl] and [defaultUrl] of the configuration, the
    markdown converter (a [TypeError] on what it cannot convert) and
    [fetch]. The response of the POST is not inspected. *)
Variable getPosts : value → promise (list value).
Variable discordBlogUrl defaultUrl : string.
Variable turndown : value → option string.
Variable fetch : value → promise Response.

(** [NextResponse.json({message})] *)
Definition NextResponse_json (message : string) : value :=
  Obj {[ "message" := Str message ]}.

Definition POST : M value :=
  try_catch
    (posts ← await_call GetPosts getPosts Undefined;
     let post := default Undefined (head posts) in
     image_url ← dot post "feature_image";
     title ← dot post "title";
     html ← dot post "html";
     message_content ← or_throw TypeError (turndown html);
     response ← await_call (Fetch (discordBlogUrl +:+ "/main/announcement")) fetch
                  (Obj (<[ "body" := Obj (<[ "learn_more" := Str (defaultUrl +:+ "/changes") ]>
                                        (<[ "message_content" := Str message_content ]>
                                        (<[ "title" := title ]>
                                        {[ "image_url" := image_url ]}))) ]>
                        {[ "method" := Str "POST" ]}));
     mret (NextResponse_json "Success"))
    (fun error => mret (NextResponse_json "Failed")).

End Route.
End Announcement.

(** ** Concrete inputs *)

Module Samples.
Import JS Zod Eff Waitlist.

Definition world0 : World := mkWorld [] [] true [].

(** An experience as the API returns it. *)
Definition experience : gmap string value :=
  list_to_map
    [ ("id", Str "123e4567-e89b-12d3-a456-426614174000");
      ("user", Str "user_1");
      ("resume_section", Str "123e4567-e89b-12d3-a456-426614174001");
      ("company_name", Str "Letraz");
      ("job_title", Str "Engineer");
      ("country", Obj (list_to_map [ ("code", Str "IND"); ("name", Str "India") ]));
      ("city", Null);
      ("employment_type", Str "flt");
      ("started_from_month", of_int 3);
      ("started_from_year", of_int 2020);
      ("current", Bool true);
      ("created_at", Str "2024-01-01T00:00:00Z");
      ("updated_at", Str "2024-01-01T00:00:00Z") ].

(** The values the experience editor submits. *)
Definition experience_mutation : gmap string value :=
  list_to_map
    [ ("company_name", Str "Letraz");
      ("job_title", Str "Engineer");
      ("country", Str "IND");
      ("employment_type", Str "flt");
      ("started_from_month", Str "thirteen");
      ("current", Bool true) ].

Definition education_input : value :=
  Obj (list_to_map
    [ ("institution_name", Str "IIT");
      ("started_from_month", Str "March");
      ("started_from_year", Str "2015") ]).

Definition new_education : value :=
  Obj (list_to_map [ ("id", Str "edu_1"); ("institution_name", Str "IIT") ]).

Definition months : list string :=
  [ "January"; "February"; "March"; "April"; "May"; "June"; "July";
    "August"; "September"; "October"; "November"; "December" ].

Definition waitlist_shape : shape :=
  [ ("email", string_ []); ("referrer", optional (string_ [])) ].

Definition post : value :=
  Obj (list_to_map
    [ ("feature_image", Str "https://letraz.app/a.png");
      ("title", Str "Release");
      ("html", Str "<p>News</p>") ]).

End Samples.

(** ** Vocabulary for statements about schemas *)

Module SchemaSpec.
Import JS Zod.

(** A schema that validates without transforming: what it returns is
    what it was given. *)
Definition passes_through (s : schema) : Prop := ∀ v r, s v = Some r → r = v.

(** A string whose [.length] is at most [n]. *)
Definition string_up_to (n : nat) (v : value) : Prop :=
  ∃ s, v = Str s ∧ (str_length s ≤ n)%nat.

(** Absent or null. *)
Definition missing (v : value) : Prop := v = Undefined ∨ v = Null.

End SchemaSpec.

(** ** lib/resume/types: the résumé and its sections *)

Module Resume.
Import JS Zod.

(** [z.union([...])]: the output of the first option that accepts. *)
Fixpoint union (options : list schema) : schema :=
  fun v =>
    match options with
    | [] => None
    | s :: more => match s v with Some r => Some r | None => union more v end
    end.

(** [z.array(s)]: an array whose elements all parse. *)
Definition array (s : schema) : schema :=
  fun v =>
    match v with
    | Arr l => Arr <$> mapM s l
    | _ => None
    end.

Section Schemas.

Variable current_year : Z.
Variable uuid : string → bool.

(** [EducationSchema], [UserInfoSchema] and [JobSchema] of the
    education, user-info and job modules. *)
Variable EducationSchema UserInfoSchema JobSchema : schema.

Definition ResumeSectionSchema : shape :=
  [ ("id", string_ []);
    ("resume", string_ []);
    ("index", number_ []);
    ("type", enum ["Education"; "Experience"]);
    ("data", union [EducationSchema;
                    object (Experience.ExperienceSchema current_year uuid)]) ].

Definition ResumeSchema : shape :=
  [ ("id", string_ []);
    ("base", boolean);
    ("user", UserInfoSchema);
    ("job", JobSchema);
    ("sections", array (object ResumeSectionSchema)) ].

End Schemas.
End Resume.

(** ** The [useThrottle] hook *)

Module Throttle.
Import JS.

(** The two refs of the hook, the timeouts the environment holds for
    it (the delay each was set with and the arguments its closure
    captured), the next timer identifier, and the arguments the
    callback was applied to, oldest first. Times are milliseconds. *)
Record Hook := mkHook {
  lastRan : Z;
  timeoutRef : option nat;
  pending : gmap nat (Z * list value);
  next_timer : nat;
  ran : list (list value)
}.

(** [useRef(Date.now())] and [useRef(null)] at the first render. *)
Definition mount (now : Z) : Hook := mkHook now None ∅ 1 [].

(** [clearTimeout(id)] when the ref holds a timer. *)
Definition clear (ref : option nat) (p : gmap nat (Z * list value)) : gmap nat (Z * list value) :=
  match ref with
  | Some id => delete id p
  | None => p
  end.

(** The throttled function applied to [args]. [now] is what
    [Date.now()] gives in the test and [now'] what it gives afterwards,
    in the assignment to [lastRan] or in the timeout's delay. *)
Definition throttled (delay : Z) (args : list value) (now now' : Z) (h : Hook) : Hook :=
  if delay <=? now - lastRan h then
    mkHook now' (timeoutRef h) (pending h) (next_timer h) (ran h ++ [args])
  else
    mkHook (lastRan h) (Some (next_timer h))
      (<[ next_timer h := (delay - (now' - lastRan h), args) ]> (clear (timeoutRef h) (pending h)))
      (S (next_timer h)) (ran h).

(** The environment fires the timeout [id] at time [now]: its closure
    applies the callback and records the time. *)
Definition fire (id : nat) (now : Z) (h : Hook) : option Hook :=
  match pending h !! id with
  | Some (_, args) =>
      Some (mkHook now (timeoutRef h) (delete id (pending h)) (next_timer h) (ran h ++ [args]))
  | None => None
  end.

(** What can happen to a mounted hook: a call or a due timeout. *)
Inductive step : Hook → Hook → Prop :=
| step_call delay args now now' h :
    step h (throttled delay args now now' h)
| step_fire id now h h' :
    fire id now h = Some h' → step h h'.

Inductive reachable : Hook → Prop :=
| reachable_mount now : reachable (mount now)
| reachable_step h h' : reachable h → step h h' → reachable h'.

End Throttle.

(** ** Further concrete inputs *)

Module Cases.
Import JS Zod Eff.

(** What the education form holds after a few fields were filled,
    with a key the schema does not know. *)
Definition education_fields : gmap string value :=
  list_to_map
    [ ("institution_name", Str "IIT");
      ("started_from_month", Str "March");
      ("started_from_year", Str "2015");
      ("draft", Bool true) ].

(** A name of 101 characters, and one of 60 accented letters, whose
    UTF-8 encoding has 120 bytes. *)
Definition long_name : string :=
  String.concat "" (replicate 101 "a").

Definition accented_name : string :=
  String.concat "" (replicate 60 "é").

(** A résumé section and a résumé as the API returns them. *)
Definition section : gmap string value :=
  list_to_map
    [ ("id", Str "section_1");
      ("resume", Str "resume_1");
      ("index", of_int 0);
      ("type", Str "Experience");
      ("data", Obj Samples.experience) ].

Definition resume : gmap string value :=
  list_to_map
    [ ("id", Str "resume_1");
      ("base", Bool true);
      ("user", Obj ∅);
      ("job", Obj ∅);
      ("sections", Arr [Obj section]) ].

(** An ok response whose body is not JSON. *)
Definition created_without_body : Waitlist.Response := Waitlist.mkResponse true None.

End Cases.

(** * Properties *)

(** ** Numbers and the zod combinators *)

Import JS Zod Eff.

(** Closes a goal whose hypothesis says that a failed parse has a value. *)
Ltac no_value := let H := fresh in intros [? H]; simpl in H; discriminate H.

Section ZodFacts.

Lemma as_integer_isInteger n : isInteger n = true ↔ is_Some (as_integer n).
Proof.
  destruct n as [| neg | q]; simpl;
    [| | destruct (Qnum q mod Z.pos (Qden q) =? 0)];
    (split; [first [discriminate | eauto] | first [by intros [? [=]] | done]]).
Qed.

(** An integral number is the rational of its integer. *)
Lemma as_integer_value q z : as_integer (Finite q) = Some z → Qeq q (inject_Z z).
Proof.
  simpl. destruct (Qnum q mod Z.pos (Qden q) =? 0) eqn:E; [|discriminate].
  intros [= <-]. apply Z.eqb_eq in E.
  unfold Qeq, inject_Z; simpl.
  pose proof (Z_div_exact_full_2 (Qnum q) (Z.pos (Qden q)) ltac:(lia) E). lia.
Qed.

Lemma ge_int_integer n z lo : as_integer n = Some z → ge_int n lo = (lo <=? z).
Proof.
  destruct n as [| neg | q]; simpl; try discriminate.
  destruct (Qnum q mod Z.pos (Qden q) =? 0) eqn:E; [|discriminate].
  intros [= <-]. apply Z.eqb_eq in E.
  pose proof (Z_div_exact_full_2 (Qnum q) (Z.pos (Qden q)) ltac:(lia) E) as D.
  unfold Qle_bool, inject_Z; simpl.
  apply eq_true_iff_eq. rewrite !Z.leb_le. nia.
Qed.

Lemma le_int_integer n z hi : as_integer n = Some z → le_int n hi = (z <=? hi).
Proof.
  destruct n as [| neg | q]; simpl; try discriminate.
  destruct (Qnum q mod Z.pos (Qden q) =? 0) eqn:E; [|discriminate].
  intros [= <-]. apply Z.eqb_eq in E.
  pose proof (Z_div_exact_full_2 (Qnum q) (Z.pos (Qden q)) ltac:(lia) E) as D.
  unfold Qle_bool, inject_Z; simpl.
  apply eq_true_iff_eq. rewrite !Z.leb_le. nia.
Qed.

(** [z.number().int().min(lo).max(hi)] accepts exactly the integers
    of [lo, hi]. *)
Lemma number_int_range lo hi v :
  accepts (number_ [int; min lo; max hi]) v ↔
  ∃ n z, v = Num n ∧ as_integer n = Some z ∧ lo ≤ z ≤ hi.
Proof.
  unfold accepts, number_, int, min, max. split.
  - destruct v as [| | | n | | |]; try no_value.
    destruct n as [| neg | q]; try no_value.
    cbn [forallb]. destruct (isInteger (Finite q)) eqn:I; [|no_value].
    apply as_integer_isInteger in I as [z Hz].
    rewrite (ge_int_integer _ _ _ Hz), (le_int_integer _ _ _ Hz).
    destruct (lo <=? z) eqn:L, (z <=? hi) eqn:U; try no_value.
    intros _. exists (Finite q), z. repeat split; [done|lia..].
  - intros (n & z & -> & Hz & Hlo & Hhi).
    destruct n as [| neg | q]; try discriminate.
    cbn [forallb]. rewrite (proj2 (as_integer_isInteger _) (mk_is_Some _ _ Hz)).
    rewrite (ge_int_integer _ _ _ Hz), (le_int_integer _ _ _ Hz).
    rewrite (proj2 (Z.leb_le _ _) Hlo), (proj2 (Z.leb_le _ _) Hhi). simpl. eauto.
Qed.

(** An object schema accepts an object exactly when every field of
    its shape accepts the property read under its key. *)
Lemma parse_fields_is_Some sh o :
  is_Some (parse_fields sh o) ↔ Forall (fun kv => accepts kv.2 (get o kv.1)) sh.
Proof.
  induction sh as [| [k s] rest IH]; simpl.
  - split; [constructor | eauto].
  - rewrite Forall_cons, <- IH. unfold accepts; simpl.
    destruct (s (get o k)) as [r|]; [| split; [by intros [? [=]] | by intros [[? [=]] _]]].
    destruct (parse_fields rest o) as [out|].
    + split; [intros _; split; eauto | eauto].
    + split; [by intros [? [=]] | by intros [_ [? [=]]]].
Qed.

Lemma object_accepts sh v :
  accepts (object sh) v ↔ ∃ o, v = Obj o ∧ Forall (fun kv => accepts kv.2 (get o kv.1)) sh.
Proof.
  unfold accepts, object. split.
  - destruct v; try no_value.
    rewrite fmap_is_Some, parse_fields_is_Some. eauto.
  - intros (o & -> & H). rewrite fmap_is_Some, parse_fields_is_Some. done.
Qed.

(** Every field of an accepted object accepts its property. *)
Lemma object_accepts_field sh o i k s :
  accepts (object sh) (Obj o) → sh !! i = Some (k, s) → accepts s (get o k).
Proof.
  intros (? & [= <-] & F)%object_accepts L.
  exact (Forall_lookup_1 _ _ _ _ F L).
Qed.

End ZodFacts.

(** ** The experience schemas *)

Section ExperienceFacts.
Import Experience.

Variable current_year : Z.
Variable uuid : string → bool.

Lemma optional_nullable_accepts s v :
  accepts (optional (nullable s)) v ↔ v = Undefined ∨ v = Null ∨ accepts s v.
Proof.
  unfold accepts, optional, nullable.
  destruct v; split; eauto; intros [?|[?|?]]; try discriminate; eauto.
Qed.

(** A date-part field admits exactly the date parts of its range. *)
Lemma date_part_accepts lo hi v :
  accepts (optional (nullable (number_ [int; min lo; max hi]))) v ↔ date_part lo hi v.
Proof.
  rewrite optional_nullable_accepts, number_int_range. reflexivity.
Qed.

(** The date parts of an accepted experience are within their ranges. *)
Lemma ExperienceSchema_accepted v :
  accepts (object (ExperienceSchema current_year uuid)) v →
  ∃ o, v = Obj o ∧ date_parts current_year o.
Proof.
  intros F. destruct (proj1 (object_accepts _ _) F) as (o & -> & _).
  exists o. split; [done|]. unfold date_parts. rewrite <- !date_part_accepts.
  repeat split.
  - exact (object_accepts_field _ _ 8%nat _ _ F eq_refl).
  - exact (object_accepts_field _ _ 9%nat _ _ F eq_refl).
  - exact (object_accepts_field _ _ 10%nat _ _ F eq_refl).
  - exact (object_accepts_field _ _ 11%nat _ _ F eq_refl).
Qed.

(** C1. Every record that [ExperienceSchema] accepts is an object
    whose [started_from_month] and [finished_at_month] are absent, null
    or integers of [1, 12], and whose [started_from_year] and
    [finished_at_year] are absent, null or integers of
    [1947, current year]; an object with a date-part field outside
    these bounds is rejected. *)
Theorem ExperienceSchema_date_parts (v : value) :
  (accepts (object (ExperienceSchema current_year uuid)) v →
     ∃ o, v = Obj o ∧ date_parts current_year o) ∧
  (∀ o, v = Obj o → ¬ date_parts current_year o →
     object (ExperienceSchema current_year uuid) v = None).
Proof.
  split; [apply ExperienceSchema_accepted|].
  intros o -> N.
  destruct (object (ExperienceSchema current_year uuid) (Obj o)) as [r|] eqn:E; [|done].
  destruct N.
  destruct (ExperienceSchema_accepted (Obj o)) as (o' & [= <-] & D); [by eexists | exact D].
Qed.

(** The mutation schema, keys resolved. *)
Lemma ExperienceMutationSchema_shape :
  ExperienceMutationSchema current_year uuid =
  [ ("company_name", string_ [max_length 250]);
    ("job_title", string_ [max_length 250]);
    ("city", optional (nullable (string_ [max_length 50])));
    ("current", boolean);
    ("description", optional (nullable (string_ [max_length 3000])));
    ("employment_type", enum employment_codes);
    ("country", string_ [country_code]);
    ("started_from_month", nullish (string_ []));
    ("started_from_year", nullish (string_ []));
    ("finished_at_month", nullish (string_ []));
    ("finished_at_year", nullish (string_ [])) ].
Proof. reflexivity. Qed.

Lemma nullish_string_accepts v :
  accepts (nullish (string_ [])) v ↔ nullish_string v.
Proof.
  unfold nullish. rewrite optional_nullable_accepts. unfold nullish_string.
  assert (accepts (string_ []) v ↔ ∃ s, v = Str s) as ->; [|done].
  unfold accepts, string_.
  destruct v; simpl; (split; [first [no_value | eauto] | first [by intros [? [=]] | eauto]]).
Qed.

Lemma enum_accepts l s : accepts (enum l) (Str s) ↔ s ∈ l.
Proof.
  unfold accepts, enum. case_bool_decide; (split; [first [no_value | done] | first [done | eauto]]).
Qed.

Lemma get_insert_ne (o : gmap string value) k k' v :
  k ≠ k' → get (<[ k := v ]> o) k' = get o k'.
Proof. intros. unfold get. by rewrite lookup_insert_ne. Qed.

Lemma get_insert (o : gmap string value) k v : get (<[ k := v ]> o) k = v.
Proof. unfold get. by rewrite lookup_insert_eq. Qed.

(** Splits and rebuilds a [Forall] over a list given by its elements. *)
Ltac split_fields H := repeat (apply Forall_cons in H as [? H]).
Ltac build_fields := repeat (apply Forall_cons; split); try apply Forall_nil.

(** C2 (as the code has it). [ExperienceSchema] validates the four
    date parts as integers within bounds; [ExperienceMutationSchema]
    declares them with [z.string().nullish()]: an object is accepted
    exactly when its other fields are and each date part is absent,
    null or a string, whatever the string; no integer or range check
    applies, and a number is rejected. *)
Theorem ExperienceMutationSchema_date_parts (o : gmap string value) :
  (accepts (object (ExperienceSchema current_year uuid)) (Obj o) → date_parts current_year o) ∧
  (accepts (object (ExperienceMutationSchema current_year uuid)) (Obj o) ↔
   accepts (object (omit date_part_keys (ExperienceMutationSchema current_year uuid))) (Obj o) ∧
   nullish_string (get o "started_from_month") ∧
   nullish_string (get o "started_from_year") ∧
   nullish_string (get o "finished_at_month") ∧
   nullish_string (get o "finished_at_year")).
Proof.
  split.
  { by intros (? & [= <-] & D)%ExperienceSchema_accepted. }
  rewrite ExperienceMutationSchema_shape, <- !nullish_string_accepts, !object_accepts.
  split.
  - intros (? & [= <-] & F). split_fields F. cbn [fst snd] in *.
    repeat split; try done. exists o. split; [done|]. build_fields; done.
  - intros ((? & [= <-] & F) & ? & ? & ? & ?). exists o. split; [done|].
    change (omit _ _) with
      [ ("company_name", string_ [max_length 250]);
        ("job_title", string_ [max_length 250]);
        ("city", optional (nullable (string_ [max_length 50])));
        ("current", boolean);
        ("description", optional (nullable (string_ [max_length 3000])));
        ("employment_type", enum employment_codes);
        ("country", string_ [country_code]) ] in F.
    split_fields F. cbn [fst snd] in *. build_fields; done.
Qed.

(** C8. [ExperienceMutationSchema] accepts an [employment_type] string
    exactly when it is one of the eight codes, both at the field and
    for a whole record whose other fields are valid, and
    [employmentTypes] lists exactly these eight values. *)
Theorem employment_type_codes :
  (∃ s, field "employment_type" (ExperienceMutationSchema current_year uuid) = Some s ∧
        ∀ code, accepts s (Str code) ↔
                code ∈ ["flt"; "prt"; "con"; "int"; "fre"; "sel"; "vol"; "tra"]) ∧
  (∀ o code,
     accepts (object (ExperienceMutationSchema current_year uuid))
       (Obj (<[ "employment_type" := Str code ]> o)) ↔
     code ∈ ["flt"; "prt"; "con"; "int"; "fre"; "sel"; "vol"; "tra"] ∧
     accepts (object (omit ["employment_type"] (ExperienceMutationSchema current_year uuid)))
       (Obj o)) ∧
  value_ <$> employmentTypes = ["flt"; "prt"; "con"; "int"; "fre"; "sel"; "vol"; "tra"].
Proof.
  split; [|split; [|reflexivity]].
  - exists (enum employment_codes). split; [reflexivity|]. intros code. apply enum_accepts.
  - intros o code. rewrite ExperienceMutationSchema_shape, !object_accepts.
    rewrite <- (enum_accepts employment_codes code). split.
    + intros (? & [= <-] & F). split_fields F. cbn [fst snd] in *.
      rewrite ?get_insert, ?get_insert_ne in * by done.
      split; [done|]. exists o. split; [done|]. build_fields; done.
    + intros (? & ? & [= <-] & F). eexists. split; [done|].
      change (omit _ _) with
        [ ("company_name", string_ [max_length 250]);
          ("job_title", string_ [max_length 250]);
          ("city", optional (nullable (string_ [max_length 50])));
          ("current", boolean);
          ("description", optional (nullable (string_ [max_length 3000])));
          ("country", string_ [country_code]);
          ("started_from_month", nullish (string_ []));
          ("started_from_year", nullish (string_ []));
          ("finished_at_month", nullish (string_ []));
          ("finished_at_year", nullish (string_ [])) ] in F.
      split_fields F. cbn [fst snd] in *.
      build_fields; cbn [fst snd]; rewrite ?get_insert, ?get_insert_ne by done; done.
Qed.

End ExperienceFacts.

Lemma ExperienceSchema_date_parts_witness :
  (∃ o, Obj Samples.experience = Obj o ∧ Experience.date_parts 2025 o) ∧
  object (Experience.ExperienceSchema 2025 uuid_pattern)
    (Obj (<[ "finished_at_month" := of_int 13 ]> Samples.experience)) = None.
Proof.
  split.
  - apply (proj1 (ExperienceSchema_date_parts 2025 uuid_pattern (Obj Samples.experience))).
    vm_compute. eauto.
  - apply (proj2 (ExperienceSchema_date_parts 2025 uuid_pattern
                    (Obj (<[ "finished_at_month" := of_int 13 ]> Samples.experience))) _ eq_refl).
    intros (_ & _ & D & _).
    assert (G : get (<[ "finished_at_month" := of_int 13 ]> Samples.experience)
                  "finished_at_month" = of_int 13) by (vm_compute; reflexivity).
    rewrite G in D. destruct D as [D|[D|(n & z & D & I & R)]]; try discriminate.
    injection D as <-. vm_compute in I. injection I as <-. lia.
Defined.

(** C2 fails as stated: the mutation schema accepts a record whose
    [started_from_month] is the string "thirteen", which is no date
    part, and rejects the same record with the integer 3 there. *)
Lemma ExperienceMutationSchema_not_integers :
  accepts (object (Experience.ExperienceMutationSchema 2025 uuid_pattern))
    (Obj Samples.experience_mutation) ∧
  ¬ Experience.date_parts 2025 Samples.experience_mutation ∧
  object (Experience.ExperienceMutationSchema 2025 uuid_pattern)
    (Obj (<[ "started_from_month" := of_int 3 ]> Samples.experience_mutation)) = None.
Proof.
  split; [vm_compute; eauto | split; [|vm_compute; reflexivity]].
  intros (D & _).
  assert (G : get Samples.experience_mutation "started_from_month" = Str "thirteen")
    by (vm_compute; reflexivity).
  rewrite G in D. destruct D as [D|[D|(n & z & D & _)]]; discriminate.
Qed.

(** ** Traces *)

Lemma toasts_emit e t :
  toasts (t ++ [e]) = toasts t ++ match e with ToastError m => [m] | _ => [] end.
Proof. unfold toasts. rewrite omap_app. by destruct e. Qed.

Lemma pushes_emit e t :
  pushes (t ++ [e]) = pushes t ++ match e with Push h => [h] | _ => [] end.
Proof. unfold pushes. rewrite omap_app. by destruct e. Qed.

Lemma calls_emit e t :
  calls (t ++ [e]) = calls t ++ match e with Call n p => [(n, p)] | _ => [] end.
Proof. unfold calls. rewrite omap_app. by destruct e. Qed.

Lemma fetches_emit e t :
  fetches (t ++ [e]) = fetches t ++ match e with Call (Fetch u) p => [(u, p)] | _ => [] end.
Proof. unfold fetches. rewrite omap_app. by destruct e as [| | | | | [] |]. Qed.

Lemma mails_emit e t :
  mails (t ++ [e]) = mails t ++ match e with Call ResendEmailsSend p => [p] | _ => [] end.
Proof. unfold mails. rewrite omap_app. by destruct e as [| | | | | [] |]. Qed.

Lemma updates_emit e t :
  updates (t ++ [e]) =
  updates t ++ match e with SetEducations l | SetExperiences l => [l] | _ => [] end.
Proof. unfold updates. rewrite omap_app. by destruct e. Qed.

Lemma resets_emit e t :
  resets (t ++ [e]) = (resets t + match e with FormReset => 1 | _ => 0 end)%nat.
Proof. unfold resets. rewrite omap_app, length_app. by destruct e. Qed.

#[local] Arguments toasts : simpl never.
#[local] Arguments pushes : simpl never.
#[local] Arguments calls : simpl never.
#[local] Arguments fetches : simpl never.
#[local] Arguments mails : simpl never.
#[local] Arguments resets : simpl never.
#[local] Arguments updates : simpl never.

Create Rewrite HintDb trace.
#[local] Hint Rewrite toasts_emit pushes_emit calls_emit fetches_emit mails_emit resets_emit
  updates_emit
  app_nil_r Nat.add_0_r : trace.

(** Runs a handler on the world by unfolding the monad. *)
Ltac run :=
  cbv beta delta [mbind mret M_bind M_ret try_catch throw perform await_call or_throw
                  router_push toast_error form_reset console_log formState_isDirty
                  handleSubmit] in *;
  cbn beta iota zeta in *.

(** ** The experience form *)

(** C7. Submitting the experience form sets the list to the list of
    the props with the submitted values appended: one entry more, the
    former entries unchanged at their positions, the new one last, in
    a single call of [setExperiences]. *)
Theorem ExperienceForm_onSubmit_appends (exps : list value) (values : value) (w : World) :
  let w' := (ExperienceForm.onSubmit exps values w).2 in
  (ExperienceForm.onSubmit exps values w).1 = Return () ∧
  experiences w' = exps ++ [values] ∧
  length (experiences w') = S (length exps) ∧
  (∀ i x, exps !! i = Some x → experiences w' !! i = Some x) ∧
  experiences w' !! length exps = Some values ∧
  updates (trace w') = updates (trace w) ++ [exps ++ [values]] ∧
  educations w' = educations w.
Proof.
  unfold ExperienceForm.onSubmit, ExperienceForm.setExperiences. run. simpl.
  repeat split.
  - rewrite length_app. simpl. lia.
  - intros i x H. by apply lookup_app_l_Some.
  - by rewrite list_lookup_middle.
  - by autorewrite with trace.
Qed.

(** ** The personal details and education forms *)

Section OnboardingFacts.
Import EducationForm.

Variable months : list string.
Variable parseInt : value → number.

(** C3. A submission the schema accepts and the backend takes moves
    the wizard on: the personal details form pushes the education step
    when [addOrUpdateUserInfoToDB] resolves, and the education form's
    redirecting submit pushes the experience step when its insert
    resolves, or at once when the form is not dirty; neither shows a
    toast. *)
Theorem successful_submission_advances :
  (∀ (UserInfoMutationSchema : schema) (db : value → promise value) input values r w,
     UserInfoMutationSchema input = Some values →
     db (Obj (spread values)) = Resolved r →
     let w' := (PersonalDetailsForm.submit UserInfoMutationSchema db input w).2 in
     pushes (trace w') = pushes (trace w) ++ ["/app/onboarding?step=education"] ∧
     toasts (trace w') = toasts (trace w)) ∧
  (∀ (db : value → promise value) input values w,
     object educationFormSchema input = Some values →
     (isDirty w = true → ∃ r, db (education_of_form months parseInt values) = Resolved r) →
     let w' := (submitAndContinue months parseInt db input w).2 in
     pushes (trace w') = pushes (trace w) ++ ["/app/onboarding?step=experience"] ∧
     toasts (trace w') = toasts (trace w) ∧
     calls (trace w') = calls (trace w) ++
       (if isDirty w then [(AddEducationToDB, education_of_form months parseInt values)] else [])).
Proof.
  split.
  - intros sch db input values r w Hs Hdb.
    unfold PersonalDetailsForm.submit, PersonalDetailsForm.onSubmit. run.
    rewrite Hs. cbn. rewrite Hdb. cbn. by autorewrite with trace.
  - intros db input values w Hs Hdb.
    unfold submitAndContinue, submitWithRedirect, insertEducation. run.
    rewrite Hs. cbn. destruct (isDirty w) eqn:D; cbn.
    + destruct Hdb as [r Hdb]; [done|]. rewrite Hdb. cbn. by autorewrite with trace.
    + by autorewrite with trace.
Qed.

(** C5. When [addEducationToDB] rejects or resolves to a falsy value,
    the education form's submit leaves the list of educations as it
    was, calls neither [setEducations] nor [form.reset] and shows the
    error toast; on a truthy result the list of the props is extended
    by it, the form is reset and no toast is shown; so the list
    changes only on success. *)
Theorem EducationForm_onSubmit_failure
    (db : value → promise value) (props_educations : list value) (values : value) (w : World) :
  let reply := db (education_of_form months parseInt values) in
  let w' := (onSubmit months parseInt db props_educations values w).2 in
  ((∃ e, reply = Rejected e) ∨ (∃ r, reply = Resolved r ∧ truthy r = false) →
     educations w' = educations w ∧
     updates (trace w') = updates (trace w) ∧
     resets (trace w') = resets (trace w) ∧
     isDirty w' = isDirty w ∧
     toasts (trace w') = toasts (trace w) ++ ["Failed to add education, please try again"]) ∧
  (∀ r, reply = Resolved r → truthy r = true →
     educations w' = props_educations ++ [r] ∧
     updates (trace w') = updates (trace w) ++ [props_educations ++ [r]] ∧
     resets (trace w') = S (resets (trace w)) ∧
     toasts (trace w') = toasts (trace w)) ∧
  (educations w' ≠ educations w → ∃ r, reply = Resolved r ∧ truthy r = true).
Proof.
  unfold onSubmit, insertEducation, setEducations. run.
  destruct (db (education_of_form months parseInt values)) as [r|e] eqn:Hdb; cbn.
  - destruct (truthy r) eqn:T; cbn; autorewrite with trace.
    + split; [intros [[e [=]]|(? & [= <-] & ?)]; congruence|].
      split; [intros ? [= <-] _; repeat split; lia | eauto].
    + split; [done|]. split; [intros ? [= <-]; congruence | done].
  - autorewrite with trace. split; [done|]. split; [intros ? [=] | done].
Qed.

End OnboardingFacts.

(** ** The waitlist action and the announcement route *)

Section ServerFacts.
Import Waitlist Announcement.

Variable WaitlistMutationSchema : shape.
Variable API_URL : string.
Variable fetch : value → promise Response.
Variable resend_emails_send : value → promise value.

(** On a response that is not ok, the action sends no mail; it returns
    the parsed parameters when the body is JSON with an [error] member
    that has members, and throws otherwise. *)
Lemma signUpForWaitlist_not_ok email referrer params r w :
  object WaitlistMutationSchema (signup_input email referrer) = Some params →
  fetch (signup_request params) = Resolved r →
  ok r = false →
  let run := signUpForWaitlist WaitlistMutationSchema API_URL fetch resend_emails_send
               email referrer w in
  mails (trace run.2) = mails (trace w) ∧
  run.1 = match body r with
          | None => Throw (Error "SyntaxError")
          | Some data =>
              match member data "error" ≫= (fun e => member e "details") with
              | Some _ => Return params
              | None => Throw TypeError
              end
          end.
Proof.
  intros Hp Hf Hok. unfold signUpForWaitlist, parse, json, dot. run.
  rewrite Hp. cbn. rewrite Hf. cbn. rewrite Hok. cbn.
  destruct (body r) as [data|]; cbn; [|by autorewrite with trace].
  destruct (member data "error") as [e|]; cbn; [|by autorewrite with trace].
  destruct (member e "details"); cbn; by autorewrite with trace.
Qed.

(** On an ok response the welcome mail goes to the parsed address and
    the parsed response body is returned. *)
Lemma signUpForWaitlist_ok email referrer o r sent data out w :
  object WaitlistMutationSchema (signup_input email referrer) = Some (Obj o) →
  fetch (signup_request (Obj o)) = Resolved r →
  ok r = true →
  resend_emails_send (welcome_mail (get o "email")) = Resolved sent →
  body r = Some data →
  object WaitlistMutationSchema data = Some out →
  let run := signUpForWaitlist WaitlistMutationSchema API_URL fetch resend_emails_send
               email referrer w in
  run.1 = Return out ∧
  mails (trace run.2) = mails (trace w) ++ [welcome_mail (get o "email")].
Proof.
  intros Hp Hf Hok Hm Hb Hd. unfold signUpForWaitlist, parse, json, dot. run.
  rewrite Hp. cbn. rewrite Hf. cbn. rewrite Hok. cbn.
  rewrite Hm. cbn. rewrite Hb. cbn. rewrite Hd. cbn. by autorewrite with trace.
Qed.

End ServerFacts.

(** ** Failures *)

(** Runs a handler through every outcome of its collaborators. *)
Ltac run_all :=
  run; repeat (case_match; cbn [fst snd] in *; simplify_eq/=);
  autorewrite with trace; rewrite ?length_app; simpl.

(** C4 fails as stated: a waitlist signup whose POST is answered with
    an error status returns the parameters and shows no toast, and an
    announcement whose POST is rejected answers "Failed" and shows no
    toast. *)
Lemma failed_posts_show_no_toast :
  let refused := fun _ : value =>
    Resolved (Waitlist.mkResponse false
                (Some (Obj {[ "error" := Obj {[ "details" := Str "duplicate" ]} ]}))) in
  let signup := Waitlist.signUpForWaitlist Samples.waitlist_shape "https://api.letraz.app"
                  refused (fun _ => Resolved Null) "user@letraz.app" Undefined Samples.world0 in
  let announce := Announcement.POST (fun _ => Resolved [Samples.post])
                    "https://discord.letraz.app" "https://letraz.app"
                    (fun v => match v with Str s => Some s | _ => None end)
                    (fun _ => Rejected (Error "fetch failed")) Samples.world0 in
  toasts (trace signup.2) = [] ∧
  length (fetches (trace signup.2)) = 1%nat ∧
  toasts (trace announce.2) = [] ∧
  length (fetches (trace announce.2)) = 1%nat ∧
  announce.1 = Return (Announcement.NextResponse_json "Failed").
Proof. vm_compute. repeat split. Qed.

(** C4 (as the code has it). The onboarding forms answer a rejected
    backend call with one error toast, after a single call and without
    navigating; the waitlist action and the announcement route run on
    the server and show no toast on any outcome; every handler sends
    its request at most once. A waitlist POST that [fetch] rejects is
    thrown to the caller; the announcement route always answers
    "Success" or "Failed", and "Failed" when [getPosts] or [fetch]
    rejects. *)
Theorem failures_and_toasts :
  (∀ (db : value → promise value) values e w,
     db (Obj (spread values)) = Rejected e →
     let w' := (PersonalDetailsForm.onSubmit db values w).2 in
     toasts (trace w') = toasts (trace w) ++ ["Failed to update information, please try again"] ∧
     calls (trace w') = calls (trace w) ++ [(AddOrUpdateUserInfoToDB, Obj (spread values))] ∧
     pushes (trace w') = pushes (trace w)) ∧
  (∀ months parseInt (db : value → promise value) props_educations values e w,
     db (EducationForm.education_of_form months parseInt values) = Rejected e →
     let w' := (EducationForm.onSubmit months parseInt db props_educations values w).2 in
     toasts (trace w') = toasts (trace w) ++ ["Failed to add education, please try again"] ∧
     calls (trace w') = calls (trace w) ++
       [(AddEducationToDB, EducationForm.education_of_form months parseInt values)] ∧
     pushes (trace w') = pushes (trace w)) ∧
  (∀ months parseInt (db : value → promise value) values e w,
     isDirty w = true →
     db (EducationForm.education_of_form months parseInt values) = Rejected e →
     let w' := (EducationForm.submitWithRedirect months parseInt db values w).2 in
     toasts (trace w') = toasts (trace w) ++ ["Failed to update education, please try again"] ∧
     calls (trace w') = calls (trace w) ++
       [(AddEducationToDB, EducationForm.education_of_form months parseInt values)] ∧
     pushes (trace w') = pushes (trace w)) ∧
  (∀ sh url fetch resend email referrer w,
     let run := Waitlist.signUpForWaitlist sh url fetch resend email referrer w in
     toasts (trace run.2) = toasts (trace w) ∧
     (length (fetches (trace run.2)) ≤ length (fetches (trace w)) + 1)%nat ∧
     (∀ params e,
        object sh (Waitlist.signup_input email referrer) = Some params →
        fetch (Waitlist.signup_request params) = Rejected e →
        run.1 = Throw e)) ∧
  (∀ getPosts discordBlogUrl defaultUrl turndown fetch w,
     let run := Announcement.POST getPosts discordBlogUrl defaultUrl turndown fetch w in
     toasts (trace run.2) = toasts (trace w) ∧
     (length (fetches (trace run.2)) ≤ length (fetches (trace w)) + 1)%nat ∧
     (run.1 = Return (Announcement.NextResponse_json "Success") ∨
      run.1 = Return (Announcement.NextResponse_json "Failed")) ∧
     (∀ e, getPosts Undefined = Rejected e →
        run.1 = Return (Announcement.NextResponse_json "Failed")) ∧
     (∀ request e,
        fetches (trace run.2) =
          fetches (trace w) ++ [(discordBlogUrl +:+ "/main/announcement", request)] →
        fetch request = Rejected e →
        run.1 = Return (Announcement.NextResponse_json "Failed"))).
Proof.
  split; [|split; [|split; [|split]]].
  - intros db values e w Hdb. unfold PersonalDetailsForm.onSubmit. run.
    rewrite Hdb. cbn. by autorewrite with trace.
  - intros months parseInt db props_educations values e w Hdb.
    unfold EducationForm.onSubmit, EducationForm.insertEducation. run.
    rewrite Hdb. cbn. by autorewrite with trace.
  - intros months parseInt db values e w Hdirty Hdb.
    unfold EducationForm.submitWithRedirect, EducationForm.insertEducation. run.
    rewrite Hdirty. cbn. rewrite Hdb. cbn. by autorewrite with trace.
  - intros sh url fetch resend email referrer w.
    unfold Waitlist.signUpForWaitlist, Waitlist.parse, Waitlist.json, Waitlist.dot.
    split; [|split].
    + run_all; done.
    + run_all; lia.
    + intros params e Hp Hf. run. rewrite Hp. cbn. by rewrite Hf.
  - intros getPosts discordBlogUrl defaultUrl turndown fetch w.
    unfold Announcement.POST, Waitlist.dot.
    split; [|split; [|split; [|split]]].
    + run_all; done.
    + run_all; lia.
    + run_all; eauto.
    + intros e Hg. run. by rewrite Hg.
    + intros request e. run.
      repeat (case_match; cbn [fst snd] in *; simplify_eq/=); try done.
      autorewrite with trace. intros Hsent Hrejected.
      apply app_inv_head in Hsent. injection Hsent as <-. congruence.
Qed.

(** C6. A refusal whose body has no [error] member, or is not JSON,
    makes [signUpForWaitlist] throw where the parameters were to be
    returned: the read of [data.error.details] for the console fails
    before the [return]. *)
Theorem signUpForWaitlist_refusal_throws :
  let refused := fun (b : option value) (_ : value) =>
    Resolved (Waitlist.mkResponse false b) in
  let signup := fun b =>
    Waitlist.signUpForWaitlist Samples.waitlist_shape "https://api.letraz.app"
      (refused b) (fun _ => Resolved Null) "user@letraz.app" Undefined Samples.world0 in
  (signup (Some (Obj ∅))).1 = Throw TypeError ∧
  (signup None).1 = Throw (Error "SyntaxError") ∧
  (signup (Some (Obj {[ "error" := Obj {[ "details" := Str "duplicate" ]} ]}))).1 =
    Return (Waitlist.signup_input "user@letraz.app" Undefined).
Proof. vm_compute. repeat split. Qed.

(** ** Instances *)

Lemma ExperienceMutationSchema_date_parts_witness :
  Experience.date_parts 2025 Samples.experience ∧
  accepts (object (Experience.ExperienceMutationSchema 2025 uuid_pattern))
    (Obj Samples.experience_mutation).
Proof.
  split.
  - apply (proj1 (ExperienceMutationSchema_date_parts 2025 uuid_pattern Samples.experience)).
    vm_compute. eauto.
  - apply (proj2 (proj2 (ExperienceMutationSchema_date_parts 2025 uuid_pattern
                           Samples.experience_mutation))).
    vm_compute. repeat split; eauto.
Defined.

Lemma employment_type_codes_witness :
  accepts (object (Experience.ExperienceMutationSchema 2025 uuid_pattern))
    (Obj (<[ "employment_type" := Str "vol" ]> Samples.experience_mutation)).
Proof.
  apply (proj2 (proj1 (proj2 (employment_type_codes 2025 uuid_pattern))
                  Samples.experience_mutation "vol")).
  split; [apply list_elem_of_In; simpl; tauto | vm_compute; eauto].
Defined.

Lemma ExperienceForm_onSubmit_appends_witness :
  experiences (ExperienceForm.onSubmit [Str "first"] (Str "second") Samples.world0).2 !! 0%nat
  = Some (Str "first").
Proof.
  apply (proj1 (proj2 (proj2 (proj2
           (ExperienceForm_onSubmit_appends [Str "first"] (Str "second") Samples.world0))))).
  reflexivity.
Defined.

Lemma successful_submission_advances_witness :
  (let w' := (PersonalDetailsForm.submit (fun v => Some v) (fun _ => Resolved Null)
                (Obj ∅) Samples.world0).2 in
   pushes (trace w') = pushes (trace Samples.world0) ++ ["/app/onboarding?step=education"] ∧
   toasts (trace w') = toasts (trace Samples.world0)) ∧
  (let w' := (EducationForm.submitAndContinue Samples.months (fun _ => NaN)
                (fun _ => Resolved Samples.new_education)
                Samples.education_input Samples.world0).2 in
   pushes (trace w') = pushes (trace Samples.world0) ++ ["/app/onboarding?step=experience"] ∧
   toasts (trace w') = toasts (trace Samples.world0) ∧
   calls (trace w') = calls (trace Samples.world0) ++
     (if isDirty Samples.world0
      then [(AddEducationToDB,
             EducationForm.education_of_form Samples.months (fun _ => NaN) Samples.education_input)]
      else [])).
Proof.
  split.
  - apply (proj1 (successful_submission_advances Samples.months (fun _ => NaN))
             (fun v => Some v) (fun _ => Resolved Null) (Obj ∅) (Obj ∅) Null Samples.world0);
      reflexivity.
  - apply (proj2 (successful_submission_advances Samples.months (fun _ => NaN))
             (fun _ => Resolved Samples.new_education)
             Samples.education_input Samples.education_input Samples.world0).
    + vm_compute. reflexivity.
    + intros _. eexists. reflexivity.
Defined.

Lemma EducationForm_onSubmit_failure_witness :
  let w' := (EducationForm.onSubmit Samples.months (fun _ => NaN)
               (fun _ => Rejected (Error "offline")) [] Samples.education_input
               Samples.world0).2 in
  educations w' = educations Samples.world0 ∧
  updates (trace w') = updates (trace Samples.world0) ∧
  resets (trace w') = resets (trace Samples.world0) ∧
  isDirty w' = isDirty Samples.world0 ∧
  toasts (trace w') = toasts (trace Samples.world0) ++
    ["Failed to add education, please try again"].
Proof.
  apply (proj1 (EducationForm_onSubmit_failure Samples.months (fun _ => NaN)
                  (fun _ => Rejected (Error "offline")) [] Samples.education_input
                  Samples.world0)).
  left. eexists. reflexivity.
Defined.

Lemma failures_and_toasts_witness :
  (let w' := (PersonalDetailsForm.onSubmit (fun _ => Rejected (Error "offline"))
                (Obj ∅) Samples.world0).2 in
   toasts (trace w') = toasts (trace Samples.world0) ++
     ["Failed to update information, please try again"] ∧
   calls (trace w') = calls (trace Samples.world0) ++ [(AddOrUpdateUserInfoToDB, Obj (spread (Obj ∅)))] ∧
   pushes (trace w') = pushes (trace Samples.world0)) ∧
  (Waitlist.signUpForWaitlist Samples.waitlist_shape "https://api.letraz.app"
     (fun _ => Rejected (Error "offline")) (fun _ => Resolved Null)
     "user@letraz.app" Undefined Samples.world0).1 = Throw (Error "offline") ∧
  (Announcement.POST (fun _ => Resolved [Samples.post]) "https://discord.letraz.app"
     "https://letraz.app" (fun v => match v with Str s => Some s | _ => None end)
     (fun _ => Rejected (Error "offline")) Samples.world0).1 =
    Return (Announcement.NextResponse_json "Failed").
Proof.
  split; [|split].
  - apply (proj1 failures_and_toasts (fun _ => Rejected (Error "offline")) (Obj ∅)
             (Error "offline") Samples.world0).
    reflexivity.
  - assert (H : object Samples.waitlist_shape (Waitlist.signup_input "user@letraz.app" Undefined)
                = Some (Waitlist.signup_input "user@letraz.app" Undefined))
      by (vm_compute; reflexivity).
    apply (proj2 (proj2 (proj1 (proj2 (proj2 (proj2 failures_and_toasts)))
             Samples.waitlist_shape "https://api.letraz.app"
             (fun _ => Rejected (Error "offline")) (fun _ => Resolved Null)
             "user@letraz.app" Undefined Samples.world0))
             _ (Error "offline") H).
    reflexivity.
  - eapply (proj2 (proj2 (proj2 (proj2 (proj2 (proj2 (proj2 (proj2 failures_and_toasts)))
              (fun _ => Resolved [Samples.post]) "https://discord.letraz.app"
              "https://letraz.app" (fun v => match v with Str s => Some s | _ => None end)
              (fun _ => Rejected (Error "offline")) Samples.world0))))).
    + vm_compute. reflexivity.
    + reflexivity.
Defined.

(** * Further properties of the schemas *)

Section SchemaFacts.
Import Experience SchemaSpec.

Variable current_year : Z.
Variable uuid : string → bool.

Lemma string_passes checks : passes_through (string_ checks).
Proof.
  intros v r. unfold string_. destruct v; try discriminate.
  destruct (forallb _ _); [by intros [= <-] | discriminate].
Qed.

Lemma boolean_passes : passes_through boolean.
Proof. intros v r. unfold boolean. destruct v; try discriminate. by intros [= <-]. Qed.

Lemma enum_passes l : passes_through (enum l).
Proof.
  intros v r. unfold enum. destruct v; try discriminate.
  case_bool_decide; [by intros [= <-] | discriminate].
Qed.

Lemma nullable_passes s : passes_through s → passes_through (nullable s).
Proof. intros P v r. unfold nullable. destruct v; try apply P. by intros [= <-]. Qed.

Lemma optional_passes s : passes_through s → passes_through (optional s).
Proof. intros P v r. unfold optional. destruct v; try apply P. by intros [= <-]. Qed.

(** An object schema whose fields pass through returns its input
    restricted to the keys of the shape. *)
Lemma parse_fields_restricts sh o out :
  Forall (fun kv => passes_through kv.2) sh →
  parse_fields sh o = Some out →
  ∀ k, out !! k = if bool_decide (k ∈ sh.*1) then o !! k else None.
Proof.
  revert out. induction sh as [| [k0 s] rest IH]; intros out P H k.
  - injection H as <-. by rewrite lookup_empty.
  - apply Forall_cons in P as [Ps P]. simpl in H, Ps.
    destruct (s (get o k0)) as [r|] eqn:Hs; [|discriminate].
    destruct (parse_fields rest o) as [out'|] eqn:Hr; [|discriminate].
    injection H as <-. apply Ps in Hs. subst r.
    specialize (IH out' P eq_refl).
    cbn [fmap list_fmap fst].
    destruct (decide (k = k0)) as [->|Hne].
    + rewrite (bool_decide_eq_true_2 (k0 ∈ k0 :: rest.*1)) by left.
      unfold get. destruct (o !! k0) as [x|] eqn:Hk; simpl.
      * by rewrite lookup_insert_eq.
      * rewrite IH, Hk. by destruct (bool_decide _).
    + assert (out' !! k = if bool_decide (k ∈ k0 :: rest.*1) then o !! k else None) as <-.
      { rewrite IH. do 2 case_bool_decide; try done.
        - exfalso. apply H0. by right.
        - apply elem_of_cons in H0 as [?|?]; done. }
      destruct (_ || _); [by rewrite lookup_insert_ne | done].
Qed.

Lemma ExperienceMutationSchema_keys :
  (ExperienceMutationSchema current_year uuid).*1 =
  [ "company_name"; "job_title"; "city"; "current"; "description"; "employment_type";
    "country"; "started_from_month"; "started_from_year"; "finished_at_month";
    "finished_at_year" ].
Proof. reflexivity. Qed.

(** X1. What [ExperienceMutationSchema] returns is the input
    restricted to its eleven fields: each of them is passed through as
    given and every other key, such as the read-only [id], [user] or
    [created_at], is dropped. *)
Theorem ExperienceMutationSchema_restricts (o out : gmap string value) :
  object (ExperienceMutationSchema current_year uuid) (Obj o) = Some (Obj out) →
  ∀ k, out !! k =
       if bool_decide (k ∈ [ "company_name"; "job_title"; "city"; "current"; "description";
                             "employment_type"; "country"; "started_from_month";
                             "started_from_year"; "finished_at_month"; "finished_at_year" ])
       then o !! k else None.
Proof.
  intros H k. rewrite <- ExperienceMutationSchema_keys.
  unfold object in H. apply fmap_Some in H as (out' & H & [= <-]).
  revert k. apply parse_fields_restricts; [|done].
  rewrite ExperienceMutationSchema_shape.
  repeat (apply Forall_cons; split); try apply Forall_nil_2; cbn [snd];
    unfold nullish;
    repeat first [apply optional_passes | apply nullable_passes | apply string_passes
                 | apply boolean_passes | apply enum_passes].
Qed.

Lemma Experience_schemas_clash v :
  accepts (object (ExperienceSchema current_year uuid)) v →
  accepts (object (ExperienceMutationSchema current_year uuid)) v →
  False.
Proof.
  intros B M. destruct (proj1 (object_accepts _ _) B) as (o & -> & _).
  pose proof (object_accepts_field _ _ 5%nat _ _ B eq_refl) as [? Hb].
  rewrite ExperienceMutationSchema_shape in M.
  pose proof (object_accepts_field _ _ 6%nat _ _ M eq_refl) as [? Hm].
  unfold readonly, object in Hb. unfold string_ in Hm.
  destruct (get o "country"); discriminate.
Qed.

(** X2. No value is accepted by both experience schemas: the base
    schema wants [country] as an object with a code and a name, the
    mutation schema wants it as a string, so what one accepts the
    other rejects. *)
Theorem Experience_schemas_disjoint (v : value) :
  (accepts (object (ExperienceSchema current_year uuid)) v →
     object (ExperienceMutationSchema current_year uuid) v = None) ∧
  (accepts (object (ExperienceMutationSchema current_year uuid)) v →
     object (ExperienceSchema current_year uuid) v = None).
Proof.
  split; intros A.
  - destruct (object (ExperienceMutationSchema current_year uuid) v) eqn:E; [|done].
    destruct (Experience_schemas_clash v); [done | by eexists].
  - destruct (object (ExperienceSchema current_year uuid) v) eqn:E; [|done].
    destruct (Experience_schemas_clash v); [by eexists | done].
Qed.

(** An accented letter is one character for [.length], a character
    beyond the basic plane two; plain ASCII text has one per byte. *)
Lemma str_length_units :
  str_length "é" = 1%nat ∧ str_length "😀" = 2%nat ∧ str_length "Letraz" = 6%nat ∧
  str_length Cases.accented_name = 60%nat ∧ String.length Cases.accented_name = 120%nat.
Proof. vm_compute. repeat split. Qed.

Lemma string_max_accepts n v :
  accepts (string_ [max_length n]) v ↔ string_up_to n v.
Proof.
  unfold accepts, string_, string_up_to, max_length. destruct v; simpl;
    try (split; [no_value | by intros (? & [=] & _)]).
  rewrite andb_true_r. destruct (Nat.leb_spec (str_length s) n).
  - split; eauto.
  - split; [no_value | intros (? & [= <-] & ?); lia].
Qed.

(** X3. The length caps of [ExperienceSchema]: an accepted record has
    a company name and a job title whose [.length] is at most 250, a
    city that is missing or of length at most 50, a description that
    is missing or of length at most 3000, and a country code of three
    capital letters. Lengths are counted as JavaScript counts them, in
    UTF-16 code units. *)
Theorem ExperienceSchema_length_caps (o : gmap string value) :
  accepts (object (ExperienceSchema current_year uuid)) (Obj o) →
  string_up_to 250 (get o "company_name") ∧
  string_up_to 250 (get o "job_title") ∧
  (missing (get o "city") ∨ string_up_to 50 (get o "city")) ∧
  (missing (get o "description") ∨ string_up_to 3000 (get o "description")) ∧
  ∃ c a b d name, get o "country" = Obj c ∧
    get c "code" = Str (String a (String b (String d EmptyString))) ∧
    is_upper a = true ∧ is_upper b = true ∧ is_upper d = true ∧
    get c "name" = Str name.
Proof.
  intros A. rewrite <- !string_max_accepts.
  pose proof (object_accepts_field _ _ 3%nat _ _ A eq_refl) as H3.
  pose proof (object_accepts_field _ _ 4%nat _ _ A eq_refl) as H4.
  pose proof (object_accepts_field _ _ 5%nat _ _ A eq_refl) as H5.
  pose proof (object_accepts_field _ _ 6%nat _ _ A eq_refl) as H6.
  pose proof (object_accepts_field _ _ 13%nat _ _ A eq_refl) as H13.
  apply optional_nullable_accepts in H6, H13. unfold missing.
  repeat split; try done; try tauto.
  unfold readonly in H5. apply object_accepts in H5 as (c & Hc & F).
  pose proof (Forall_lookup_1 _ _ 0%nat _ F eq_refl) as [? Hcode].
  pose proof (Forall_lookup_1 _ _ 1%nat _ F eq_refl) as [? Hname].
  cbn [fst snd] in Hcode, Hname. unfold string_ in Hcode, Hname.
  destruct (get c "code") as [| | | | code | |] eqn:Ecode; try discriminate.
  destruct (get c "name") as [| | | | name | |] eqn:Ename; try discriminate.
  simpl in Hcode. rewrite andb_true_r in Hcode.
  destruct (country_code code) eqn:Hcc; [|discriminate].
  unfold country_code in Hcc.
  destruct code as [|a [|b [|d [|]]]]; try discriminate.
  apply andb_prop in Hcc as [[Ha Hb]%andb_prop Hd].
  exists c, a, b, d, name. by rewrite Hc.
Qed.

End SchemaFacts.

Section YearBound.
Import Experience.

Variable uuid : string → bool.

Lemma date_part_widens lo hi hi' v : hi ≤ hi' → date_part lo hi v → date_part lo hi' v.
Proof.
  intros L [?|[?|(n & z & ? & ? & ?)]]; [by left | by right; left |].
  right; right. exists n, z. repeat split; try done; lia.
Qed.

(** X4. The upper bound of the years only grows: a record that
    [ExperienceSchema] accepts when loaded in one year is accepted
    when loaded in any later year. *)
Theorem ExperienceSchema_later_year (y y' : Z) (v : value) :
  y ≤ y' →
  accepts (object (ExperienceSchema y uuid)) v →
  accepts (object (ExperienceSchema y' uuid)) v.
Proof.
  intros L. rewrite !object_accepts. intros (o & -> & F). exists o. split; [done|].
  unfold ExperienceSchema in *.
  repeat (apply Forall_cons in F as [? F]).
  repeat (apply Forall_cons; split); try apply Forall_nil_2; try done; cbn [fst snd] in *.
  - apply date_part_accepts. by apply (date_part_widens _ y), date_part_accepts.
  - apply date_part_accepts. by apply (date_part_widens _ y), date_part_accepts.
Qed.

End YearBound.

(** * Further properties of the education form *)

Section EducationFacts.
Import EducationForm SchemaSpec.

Variable months : list string.
Variable parseInt : value → number.

Lemma findIndex_range l v : -1 ≤ findIndex l v < Z.of_nat (length l).
Proof.
  induction l as [|x l IH]; simpl; [lia|].
  destruct v; try lia. destruct (String.eqb x s); [lia|].
  destruct (findIndex l (Str s) =? -1) eqn:E; lia.
Qed.

(** [months.findIndex((month) => month === v)] gives [-1] exactly
    when [v] is no string of the list, and otherwise the position of
    the first entry equal to [v]. *)
Lemma findIndex_first (l : list string) (s : string) :
  (findIndex l (Str s) = -1 ↔ s ∉ l) ∧
  (∀ i, findIndex l (Str s) = Z.of_nat i →
        l !! i = Some s ∧ ∀ j, (j < i)%nat → l !! j ≠ Some s).
Proof.
  induction l as [|x l [IH1 IH2]]; simpl.
  - split; [split; [intros _; apply not_elem_of_nil | done] | intros i H; lia].
  - destruct (String.eqb_spec x s) as [->|Hne].
    + split; [split; [done | intros []; left] |].
      intros [|i] H; [|lia]. split; [done | intros j ?; lia].
    + pose proof (findIndex_range l (Str s)) as R.
      destruct (findIndex l (Str s) =? -1) eqn:E.
      * apply Z.eqb_eq in E. split; [|intros i H; lia].
        split; [intros _ | done]. rewrite not_elem_of_cons. split; [done | by apply IH1].
      * apply Z.eqb_neq in E. split.
        { split; [lia|]. intros N. apply not_elem_of_cons in N as [_ N]. apply IH1 in N. lia. }
        intros [|i] H; [lia|]. destruct (IH2 i) as [Hi Hj]; [lia|].
        split; [done|]. intros [|j] ?; simpl; [congruence | apply Hj; lia].
Qed.

(** X5. The month sent to the backend: [null] for a missing or empty
    selection, the 1-based position of the first match for a name of
    [months], and 0 for any other non-empty string. *)
Theorem month_of_cases (v : value) :
  (truthy v = false → month_of months v = Null) ∧
  (∀ s i, v = Str s → s ≠ "" → months !! i = Some s →
          (∀ j, (j < i)%nat → months !! j ≠ Some s) →
          month_of months v = of_int (Z.of_nat i + 1)) ∧
  (∀ s, v = Str s → s ≠ "" → s ∉ months → month_of months v = of_int 0).
Proof.
  unfold month_of. split; [by intros ->|]. split.
  - intros s i -> Hs Hi Hfirst. simpl.
    destruct (String.eqb_spec s ""); [done|]. simpl. f_equal. f_equal. f_equal. f_equal.
    pose proof (findIndex_range months (Str s)) as R.
    destruct (findIndex_first months s) as [H1 H2].
    destruct (Z.eq_dec (findIndex months (Str s)) (-1)) as [E|E].
    + apply H1 in E. destruct E. by eapply list_elem_of_lookup_2.
    + destruct (H2 (Z.to_nat (findIndex months (Str s)))) as [Hk Hmin]; [lia|].
      destruct (Nat.lt_trichotomy (Z.to_nat (findIndex months (Str s))) i) as [Lt|[Eq|Gt]].
      * by destruct (Hfirst _ Lt).
      * lia.
      * by destruct (Hmin _ Gt).
  - intros s -> Hs Hn. simpl. destruct (String.eqb_spec s ""); [done|]. simpl.
    by rewrite (proj2 (proj1 (findIndex_first months s)) Hn).
Qed.

End EducationFacts.

Section EducationFlow.
Import EducationForm SchemaSpec.

Variable months : list string.
Variable parseInt : value → number.
Variable db : value → promise value.

(** Membership in a list given by its elements. *)
Ltac listed := apply list_elem_of_In; simpl; auto 20.

Lemma educationFormSchema_restricts o out :
  parse_fields educationFormSchema o = Some out →
  ∀ k, out !! k = if bool_decide (k ∈ educationFormSchema.*1) then o !! k else None.
Proof.
  apply parse_fields_restricts. unfold educationFormSchema.
  repeat (apply Forall_cons; split); try apply Forall_nil_2; cbn [snd];
    repeat first [apply optional_passes | apply string_passes | apply boolean_passes].
Qed.

(** X6. What the education form sends: for an input its schema
    accepts, the submit calls [addEducationToDB] exactly once,
    whatever the reply, with a record that carries the text fields as
    typed, the converted date parts, [current] computed from the
    finishing year alone, and none of the input's other keys. *)
Theorem EducationForm_submit_payload (o : gmap string value) (w : World) :
  accepts (object educationFormSchema) (Obj o) →
  ∃ p, calls (trace (submit months parseInt db (Obj o) w).2) =
         calls (trace w) ++ [(AddEducationToDB, Obj p)] ∧
       (∀ k, k ∈ ["id"; "institution_name"; "country"; "field_of_study"; "degree";
                  "description"] → p !! k = o !! k) ∧
       p !! "started_from_month" = Some (month_of months (get o "started_from_month")) ∧
       p !! "started_from_year" = Some (year_of parseInt (get o "started_from_year")) ∧
       p !! "finished_at_month" = Some (month_of months (get o "finished_at_month")) ∧
       p !! "finished_at_year" = Some (year_of parseInt (get o "finished_at_year")) ∧
       p !! "current" = Some (Bool (negb (truthy (get o "finished_at_year")))) ∧
       (∀ k, k ∉ educationFormSchema.*1 → p !! k = None).
Proof.
  intros [out Hout]. unfold object in Hout.
  apply fmap_Some in Hout as (q & Hq & ->).
  pose proof (educationFormSchema_restricts _ _ Hq) as R.
  assert (G : ∀ k, k ∈ educationFormSchema.*1 → get q k = get o k).
  { intros k Hk. unfold get. by rewrite R, bool_decide_eq_true_2. }
  eexists. split.
  { unfold submit, onSubmit, insertEducation, setEducations, object. run. rewrite Hq. cbn.
    unfold education_of_form. cbn [spread].
    destruct (db _); [destruct (truthy _)|]; cbn; autorewrite with trace; simpl;
      rewrite <- ?app_assoc; reflexivity. }
  rewrite !G by listed.
  repeat split.
  - intros k Hk.
    repeat (apply elem_of_cons in Hk as [->|Hk]); [..|by apply elem_of_nil in Hk];
      (rewrite !lookup_insert_ne by done; rewrite R, bool_decide_eq_true_2 by listed; done).
  - by rewrite !lookup_insert_ne, lookup_insert_eq by done.
  - by rewrite !lookup_insert_ne, lookup_insert_eq by done.
  - by rewrite !lookup_insert_ne, lookup_insert_eq by done.
  - by rewrite !lookup_insert_ne, lookup_insert_eq by done.
  - by rewrite lookup_insert_eq.
  - intros k Hk. rewrite !lookup_insert_ne by (intros <-; apply Hk; listed).
    by rewrite R, bool_decide_eq_false_2.
Qed.

End EducationFlow.

Section FormFacts.
Import EducationForm.

Variable months : list string.
Variable parseInt : value → number.
Variable db : value → promise value.

Lemma optional_string_max n s :
  accepts (optional (string_ [max_length n])) (Str s) → (str_length s ≤ n)%nat.
Proof.
  unfold accepts, optional, string_, max_length. simpl. rewrite andb_true_r.
  destruct (Nat.leb_spec (str_length s) n); [done | no_value].
Qed.

(** X7. A name whose [.length] exceeds 100 (in UTF-16 code units, as
    JavaScript counts) stops the forms before anything happens: with
    such an [institution_name] neither button of the education form
    calls the backend, navigates, shows a toast or touches the list,
    and the same holds for the experience form with such a
    [companyName]. *)
Theorem long_name_not_submitted (o : gmap string value) (s : string) (w : World) :
  (100 < str_length s)%nat →
  (get o "institution_name" = Str s →
     submit months parseInt db (Obj o) w = (Return (), w) ∧
     submitAndContinue months parseInt db (Obj o) w = (Return (), w)) ∧
  (get o "companyName" = Str s →
     ExperienceForm.submit (Obj o) w = (Return (), w) ∧
     handleSubmit (object ExperienceForm.experienceFormSchema)
       ExperienceForm.submitWithRedirect (Obj o) w = (Return (), w)).
Proof.
  intros L. split; intros G.
  - assert (N : object educationFormSchema (Obj o) = None).
    { destruct (object educationFormSchema (Obj o)) eqn:E; [|done].
      assert (A : accepts (object educationFormSchema) (Obj o)) by (by eexists).
      pose proof (object_accepts_field _ _ 1%nat _ _ A eq_refl) as F.
      rewrite G in F. apply optional_string_max in F. lia. }
    unfold submit, submitAndContinue, handleSubmit. by rewrite N.
  - assert (N : object ExperienceForm.experienceFormSchema (Obj o) = None).
    { destruct (object ExperienceForm.experienceFormSchema (Obj o)) eqn:E; [|done].
      assert (A : accepts (object ExperienceForm.experienceFormSchema) (Obj o)) by (by eexists).
      pose proof (object_accepts_field _ _ 0%nat _ _ A eq_refl) as F.
      rewrite G in F. apply optional_string_max in F. lia. }
    unfold ExperienceForm.submit, handleSubmit. by rewrite N.
Qed.

(** A name of 60 accented letters is within the cap and reaches the
    handler. *)
Lemma accented_name_accepted :
  accepts (object educationFormSchema)
    (Obj {[ "institution_name" := Str Cases.accented_name ]}) ∧
  accepts (object ExperienceForm.experienceFormSchema)
    (Obj {[ "companyName" := Str Cases.accented_name ]}).
Proof. split; vm_compute; eauto. Qed.

(** X8. The handlers of the personal details and education forms
    catch every failure: they never throw, and each run of a
    redirecting handler ends in exactly one of a navigation and an
    error toast; the education form's plain submit never navigates,
    and its redirecting submit never changes the list of educations
    nor resets the form, even when its insert succeeds. *)
Theorem onboarding_handlers_settle (values : value) (w : World) :
  (∀ save : value → promise value,
     let r := PersonalDetailsForm.onSubmit save values w in
     r.1 = Return () ∧
     (pushes (trace r.2) = pushes (trace w) ++ ["/app/onboarding?step=education"] ∧
        toasts (trace r.2) = toasts (trace w) ∨
      pushes (trace r.2) = pushes (trace w) ∧
        toasts (trace r.2) =
          toasts (trace w) ++ ["Failed to update information, please try again"])) ∧
  (let r := submitWithRedirect months parseInt db values w in
   r.1 = Return () ∧
   (pushes (trace r.2) = pushes (trace w) ++ ["/app/onboarding?step=experience"] ∧
      toasts (trace r.2) = toasts (trace w) ∨
    pushes (trace r.2) = pushes (trace w) ∧
      toasts (trace r.2) =
        toasts (trace w) ++ ["Failed to update education, please try again"]) ∧
   educations r.2 = educations w ∧
   updates (trace r.2) = updates (trace w) ∧
   resets (trace r.2) = resets (trace w) ∧
   isDirty r.2 = isDirty w) ∧
  (∀ props_educations,
     let r := onSubmit months parseInt db props_educations values w in
     r.1 = Return () ∧ pushes (trace r.2) = pushes (trace w)).
Proof.
  split; [|split].
  - intros save. unfold PersonalDetailsForm.onSubmit. run.
    destruct (save _); cbn; autorewrite with trace; auto.
  - unfold submitWithRedirect, insertEducation. run.
    destruct (isDirty w) eqn:D; cbn; [destruct (db _); cbn|];
      autorewrite with trace; rewrite ?D; auto 10.
  - intros props. unfold onSubmit, insertEducation, setEducations. run.
    destruct (db _) as [r|]; cbn; [destruct (truthy r); cbn|];
      by autorewrite with trace.
Qed.

(** X9. The experience form keeps its entries in the page: its
    submit never calls a collaborator, navigates or shows a toast; on
    an input the schema accepts it appends the parsed values to the
    list of the page and resets the form, and on any other input it
    does nothing. Moving on to the résumé step sends and changes
    nothing either. *)
Theorem ExperienceForm_stays_local (input : value) (w : World) :
  (let r := ExperienceForm.submit input w in
   r.1 = Return () ∧
   calls (trace r.2) = calls (trace w) ∧
   pushes (trace r.2) = pushes (trace w) ∧
   toasts (trace r.2) = toasts (trace w) ∧
   match object ExperienceForm.experienceFormSchema input with
   | Some values =>
       experiences r.2 = experiences w ++ [values] ∧ isDirty r.2 = false ∧
       resets (trace r.2) = S (resets (trace w))
   | None => r.2 = w
   end) ∧
  (let r := ExperienceForm.submitWithRedirect input w in
   r.1 = Return () ∧
   calls (trace r.2) = calls (trace w) ∧
   experiences r.2 = experiences w ∧
   pushes (trace r.2) = pushes (trace w) ++ ["/app/onboarding?step=resume"]).
Proof.
  split.
  - unfold ExperienceForm.submit, ExperienceForm.onSubmit, ExperienceForm.setExperiences. run.
    destruct (object ExperienceForm.experienceFormSchema input); cbn;
      autorewrite with trace; repeat split; lia.
  - unfold ExperienceForm.submitWithRedirect. run. cbn. by autorewrite with trace.
Qed.

End FormFacts.

(** * Further properties of the server code *)

Section WaitlistFacts.
Import Waitlist.

Variable WaitlistMutationSchema : shape.
Variable API_URL : string.
Variable fetch : value → promise Response.
Variable resend_emails_send : value → promise value.

(** X10. What [signUpForWaitlist] sends. Input the schema rejects
    throws a [ZodError] before anything is sent. A rejected [fetch]
    throws its reason after the one request, with no mail. A welcome
    mail is sent at most once, and only to the parsed address after a
    response with an ok status. *)
Theorem signUpForWaitlist_sends (email : string) (referrer : value) (w : World) :
  let r := signUpForWaitlist WaitlistMutationSchema API_URL fetch resend_emails_send
             email referrer w in
  (object WaitlistMutationSchema (signup_input email referrer) = None →
     r = (Throw ZodError, w)) ∧
  (∀ params e,
     object WaitlistMutationSchema (signup_input email referrer) = Some params →
     fetch (signup_request params) = Rejected e →
     r.1 = Throw e ∧
     mails (trace r.2) = mails (trace w) ∧
     fetches (trace r.2) =
       fetches (trace w) ++ [(API_URL +:+ "/waitlist/", signup_request params)]) ∧
  (mails (trace r.2) = mails (trace w) ∨
   ∃ o response,
     object WaitlistMutationSchema (signup_input email referrer) = Some (Obj o) ∧
     fetch (signup_request (Obj o)) = Resolved response ∧
     ok response = true ∧
     mails (trace r.2) = mails (trace w) ++ [welcome_mail (get o "email")]).
Proof.
  unfold signUpForWaitlist, parse, json, dot. run. split; [|split].
  - by intros ->.
  - intros params e -> Hf. cbn. rewrite Hf. cbn. by autorewrite with trace.
  - destruct (object WaitlistMutationSchema (signup_input email referrer))
      as [params|] eqn:Hp; cbn; [|by left].
    destruct (fetch (signup_request params)) as [response|] eqn:Hf; cbn;
      [|left; by autorewrite with trace].
    destruct (ok response) eqn:Hok; cbn.
    + assert (∃ o, params = Obj o) as [o ->].
      { unfold object in Hp. destruct (signup_input email referrer); try discriminate.
        apply fmap_Some in Hp as (? & _ & ->). eauto. }
      right. exists o, response. repeat split; try done. cbn.
      repeat (case_match; cbn [fst snd]; simplify_eq/=); by autorewrite with trace.
    + left. destruct (body response) as [data|]; cbn; [|by autorewrite with trace].
      destruct (member data "error") as [err|]; cbn; [|by autorewrite with trace].
      destruct (member err "details"); cbn; by autorewrite with trace.
Qed.

(** X11. The welcome mail goes out before the response body is read:
    after an ok status, a body that is not JSON or that the schema
    rejects makes the action throw although the mail was sent, and a
    rejected mail makes it throw the mail client's reason. *)
Theorem signUpForWaitlist_mail_before_body
    (email : string) (referrer : value) (o : gmap string value) (response : Response)
    (w : World) :
  object WaitlistMutationSchema (signup_input email referrer) = Some (Obj o) →
  fetch (signup_request (Obj o)) = Resolved response →
  ok response = true →
  let r := signUpForWaitlist WaitlistMutationSchema API_URL fetch resend_emails_send
             email referrer w in
  mails (trace r.2) = mails (trace w) ++ [welcome_mail (get o "email")] ∧
  (∀ e, resend_emails_send (welcome_mail (get o "email")) = Rejected e → r.1 = Throw e) ∧
  (∀ sent, resend_emails_send (welcome_mail (get o "email")) = Resolved sent →
     r.1 = match body response with
           | None => Throw (Error "SyntaxError")
           | Some data =>
               match object WaitlistMutationSchema data with
               | Some out => Return out
               | None => Throw ZodError
               end
           end).
Proof.
  intros Hp Hf Hok. unfold signUpForWaitlist, parse, json, dot. run.
  rewrite Hp. cbn. rewrite Hf. cbn. rewrite Hok. cbn.
  destruct (resend_emails_send _) as [sent|e] eqn:Hm; cbn.
  - destruct (body response) as [data|]; cbn;
      [destruct (object WaitlistMutationSchema data); cbn|];
      autorewrite with trace; (split; [done | split; [by intros ? [=] | by intros ? _]]).
  - autorewrite with trace. split; [done | split; [by intros ? [= <-] | by intros ? [=]]].
Qed.

End WaitlistFacts.

Section AnnouncementFacts.
Import Waitlist Announcement.

Variable getPosts : value → promise (list value).
Variable discordBlogUrl defaultUrl : string.
Variable turndown : value → option string.
Variable fetch : value → promise Response.

(** X12. The announcement route answers "Success" exactly when it
    sent its request and [fetch] resolved, whatever the status of the
    response; it sends no request when there is no post to announce. *)
Theorem POST_success (w : World) :
  let r := POST getPosts discordBlogUrl defaultUrl turndown fetch w in
  (r.1 = Return (NextResponse_json "Success") ↔
   ∃ request response,
     fetches (trace r.2) =
       fetches (trace w) ++ [(discordBlogUrl +:+ "/main/announcement", request)] ∧
     fetch request = Resolved response) ∧
  (getPosts Undefined = Resolved [] →
     r.1 = Return (NextResponse_json "Failed") ∧ fetches (trace r.2) = fetches (trace w)).
Proof.
  unfold POST, dot. run.
  assert (Grow : ∀ (l : list (string * value)) x, l ≠ l ++ [x]).
  { intros l x H. apply (f_equal length) in H. rewrite length_app in H. simpl in H. lia. }
  split.
  - destruct (getPosts Undefined) as [posts|]; cbn.
    2: { autorewrite with trace. split; [done | intros (? & ? & H & _); by destruct (Grow _ _ H)]. }
    destruct (member (default Undefined (head posts)) "feature_image"); cbn.
    2: { autorewrite with trace. split; [done | intros (? & ? & H & _); by destruct (Grow _ _ H)]. }
    destruct (member (default Undefined (head posts)) "title"); cbn.
    2: { autorewrite with trace. split; [done | intros (? & ? & H & _); by destruct (Grow _ _ H)]. }
    destruct (member (default Undefined (head posts)) "html") as [html|]; cbn.
    2: { autorewrite with trace. split; [done | intros (? & ? & H & _); by destruct (Grow _ _ H)]. }
    destruct (turndown html); cbn.
    2: { autorewrite with trace. split; [done | intros (? & ? & H & _); by destruct (Grow _ _ H)]. }
    destruct (fetch _) as [response|] eqn:Hf; cbn; autorewrite with trace.
    + split; [intros _; eauto | done].
    + split; [done|]. intros (request & response & H & Hr).
      apply app_inv_head in H. injection H as <-. congruence.
  - intros ->. cbn. by autorewrite with trace.
Qed.

End AnnouncementFacts.

(** * The résumé schemas *)

Section ResumeFacts.
Import Experience Resume.

Variable current_year : Z.
Variable uuid : string → bool.
Variable EducationSchema UserInfoSchema JobSchema : schema.

Lemma union_accepts options v :
  accepts (union options) v ↔ Exists (fun s => accepts s v) options.
Proof.
  unfold accepts. induction options as [|s more IH]; simpl.
  - split; [no_value | by intros ?%Exists_nil].
  - rewrite Exists_cons, <- IH. destruct (s v); split; eauto.
    + intros [[? [=]]|?]; done.
Qed.

Lemma array_accepts s v :
  accepts (array s) v ↔ ∃ l, v = Arr l ∧ Forall (accepts s) l.
Proof.
  unfold accepts, array. destruct v; try (split; [no_value | by intros (? & [=] & _)]).
  rewrite fmap_is_Some, mapM_is_Some. split; [eauto | by intros (? & [= <-] & ?)].
Qed.

(** X13. A section's [type] is not tied to its [data]: a section that
    [ResumeSectionSchema] accepts is accepted as well with the other
    of the two type names, so a section named "Education" may carry an
    experience. *)
Theorem ResumeSectionSchema_type_free (o : gmap string value) (t t' : string) :
  t' ∈ ["Education"; "Experience"] →
  accepts (object (ResumeSectionSchema current_year uuid EducationSchema))
    (Obj (<[ "type" := Str t ]> o)) →
  accepts (object (ResumeSectionSchema current_year uuid EducationSchema))
    (Obj (<[ "type" := Str t' ]> o)).
Proof.
  intros Ht. rewrite !object_accepts.
  intros (? & [= <-] & F). eexists. split; [done|].
  unfold ResumeSectionSchema in *.
  repeat (apply Forall_cons in F as [? F]). cbn [fst snd] in *.
  rewrite ?get_insert, ?get_insert_ne in * by done.
  repeat (apply Forall_cons; split); try apply Forall_nil_2; cbn [fst snd];
    rewrite ?get_insert, ?get_insert_ne by done; try done.
  by apply enum_accepts.
Qed.

(** X14. Every section of a résumé that [ResumeSchema] accepts is an
    object with a type of "Education" or "Experience" and data that
    [EducationSchema] accepts or that is an experience with its date
    parts in range. *)
Theorem ResumeSchema_sections (v : value) :
  accepts (object (ResumeSchema current_year uuid EducationSchema UserInfoSchema JobSchema)) v →
  ∃ o sections,
    v = Obj o ∧ get o "sections" = Arr sections ∧
    ∀ section, section ∈ sections →
      ∃ so, section = Obj so ∧
        (get so "type" = Str "Education" ∨ get so "type" = Str "Experience") ∧
        (accepts EducationSchema (get so "data") ∨
         ∃ data, get so "data" = Obj data ∧ date_parts current_year data).
Proof.
  intros A. destruct (proj1 (object_accepts _ _) A) as (o & -> & _).
  pose proof (object_accepts_field _ _ 4%nat _ _ A eq_refl) as (sections & Hs & F)%array_accepts.
  exists o, sections. split; [done|]. split; [done|].
  intros section Hin. rewrite Forall_forall in F. specialize (F _ Hin).
  destruct (proj1 (object_accepts _ _) F) as (so & -> & _).
  exists so. split; [done|].
  pose proof (object_accepts_field _ _ 3%nat _ _ F eq_refl) as Ht.
  pose proof (object_accepts_field _ _ 4%nat _ _ F eq_refl) as Hd.
  split.
  - destruct (get so "type") as [| | | | t | |]; try (by destruct Ht as [? [=]]).
    apply enum_accepts in Ht.
    repeat (apply elem_of_cons in Ht as [->|Ht]); [by left | by right | by apply elem_of_nil in Ht].
  - apply union_accepts in Hd.
    apply Exists_cons in Hd as [?|Hd]; [by left|].
    apply Exists_cons in Hd as [Hd|Hd]; [|by apply Exists_nil in Hd].
    right. by apply ExperienceSchema_accepted in Hd.
Qed.

End ResumeFacts.

(** * The throttle hook *)

Section ThrottleFacts.
Import Throttle.

Lemma throttle_ref_tracks h :
  reachable h → ∀ id, is_Some (pending h !! id) → timeoutRef h = Some id.
Proof.
  induction 1 as [now | h h' R IH S]; simpl.
  - intros id [? H]. by rewrite lookup_empty in H.
  - destruct S as [delay args now now' h | id0 now h h' F].
    + unfold throttled. destruct (delay <=? now - lastRan h); simpl; [exact IH|].
      intros id. destruct (decide (id = next_timer h)) as [->|Hne]; [done|].
      rewrite lookup_insert_ne by done. unfold clear.
      destruct (timeoutRef h) as [r|] eqn:E.
      * destruct (decide (id = r)) as [->|Hr].
        { rewrite lookup_delete_eq. by intros [? [=]]. }
        rewrite lookup_delete_ne by done. intros H%IH. congruence.
      * intros H%IH. congruence.
    + unfold fire in F. destruct (pending h !! id0) as [[d args]|]; [|discriminate].
      injection F as <-. simpl. intros id.
      destruct (decide (id = id0)) as [->|Hne].
      * rewrite lookup_delete_eq. by intros [? [=]].
      * rewrite lookup_delete_ne by done. apply IH.
Qed.

(** X15. The hook never holds more than one timeout: in every state
    it can reach by calls and fired timeouts, whatever the clock
    shows, a pending timeout is the one [timeoutRef] names. *)
Theorem throttle_one_timeout (h : Hook) :
  reachable h →
  (∀ id, is_Some (pending h !! id) → timeoutRef h = Some id) ∧
  (size (pending h) ≤ 1)%nat.
Proof.
  intros R. pose proof (throttle_ref_tracks h R) as T. split; [exact T|].
  destruct (timeoutRef h) as [r|] eqn:E.
  - destruct (pending h !! r) as [x|] eqn:Hr.
    + assert (pending h = {[ r := x ]}) as ->; [|rewrite map_size_singleton; lia].
      apply map_eq. intros id. destruct (decide (id = r)) as [->|Hne].
      * by rewrite lookup_singleton_eq.
      * rewrite lookup_singleton_ne by done.
        destruct (pending h !! id) eqn:Hid; [|done].
        assert (Some r = Some id) by (apply T; eauto). congruence.
    + assert (pending h = ∅) as ->; [|rewrite map_size_empty; lia].
      apply map_empty. intros id. destruct (pending h !! id) eqn:Hid; [|done].
      assert (Some r = Some id) by (apply T; eauto). congruence.
  - assert (pending h = ∅) as ->; [|rewrite map_size_empty; lia].
    apply map_empty. intros id. destruct (pending h !! id) eqn:Hid; [|done].
    assert (None = Some id) by (apply T; eauto). done.
Qed.

(** X16. A call of the throttled function either runs the callback at
    once, when [delay] has passed since the last run, or defers it:
    then the callback is not run, any call deferred before is
    dropped, and the only pending timeout carries the arguments of
    this call and is due [delay] after the last run. *)
Theorem throttle_call (delay : Z) (args : list value) (now now' : Z) (h : Hook) :
  reachable h →
  let h' := throttled delay args now now' h in
  (delay ≤ now - lastRan h →
     ran h' = ran h ++ [args] ∧ lastRan h' = now' ∧ pending h' = pending h) ∧
  (now - lastRan h < delay →
     ran h' = ran h ∧ lastRan h' = lastRan h ∧
     ∃ timeout, pending h' = {[ next_timer h := (timeout, args) ]} ∧
                timeoutRef h' = Some (next_timer h) ∧
                now' + timeout = lastRan h + delay).
Proof.
  intros R. pose proof (throttle_ref_tracks h R) as T. unfold throttled. split.
  - intros L. by rewrite (proj2 (Z.leb_le _ _) L).
  - intros L. rewrite (proj2 (Z.leb_gt _ _) L). simpl. repeat split.
    exists (delay - (now' - lastRan h)). repeat split; [|lia].
    assert (clear (timeoutRef h) (pending h) = ∅) as ->; [|done].
    apply map_empty. intros id. unfold clear.
    destruct (timeoutRef h) as [r|] eqn:E.
    + destruct (decide (id = r)) as [->|Hne]; [by rewrite lookup_delete_eq|].
      rewrite lookup_delete_ne by done.
      destruct (pending h !! id) eqn:Hid; [|done].
      assert (Some r = Some id) by (apply T; eauto). congruence.
    + destruct (pending h !! id) eqn:Hid; [|done].
      assert (None = Some id) by (apply T; eauto). done.
Qed.

(** X17. A timeout that fires runs the callback on the arguments of
    the call that set it, records the time, and leaves no timeout
    pending; a timeout that was replaced or has fired cannot fire. *)
Theorem throttle_fire (id : nat) (now : Z) (h : Hook) :
  reachable h →
  match fire id now h with
  | Some h' =>
      ∃ timeout args, pending h !! id = Some (timeout, args) ∧
        ran h' = ran h ++ [args] ∧ lastRan h' = now ∧ pending h' = ∅
  | None => pending h !! id = None
  end.
Proof.
  intros R. pose proof (throttle_ref_tracks h R) as T. unfold fire.
  destruct (pending h !! id) as [[timeout args]|] eqn:Hid; [|done].
  exists timeout, args. repeat split. simpl.
  apply map_empty. intros id'.
  destruct (decide (id' = id)) as [->|Hne]; [by rewrite lookup_delete_eq|].
  rewrite lookup_delete_ne by done.
  destruct (pending h !! id') eqn:Hid'; [|done].
  assert (timeoutRef h = Some id) by (apply T; eauto).
  assert (timeoutRef h = Some id') by (apply T; eauto). congruence.
Qed.

End ThrottleFacts.

(** * Instances of the further properties *)

Lemma ExperienceMutationSchema_restricts_witness :
  Samples.experience_mutation !! "id" = None ∧
  Samples.experience_mutation !! "job_title" = Some (Str "Engineer").
Proof.
  assert (H : object (Experience.ExperienceMutationSchema 2025 uuid_pattern)
                (Obj (<[ "id" := Str "123e4567-e89b-12d3-a456-426614174000" ]>
                        Samples.experience_mutation))
              = Some (Obj Samples.experience_mutation)) by (vm_compute; reflexivity).
  pose proof (ExperienceMutationSchema_restricts 2025 uuid_pattern _ _ H) as T.
  split; [rewrite (T "id") | rewrite (T "job_title")]; vm_compute; reflexivity.
Defined.

Lemma Experience_schemas_disjoint_witness :
  object (Experience.ExperienceMutationSchema 2025 uuid_pattern) (Obj Samples.experience) = None ∧
  object (Experience.ExperienceSchema 2025 uuid_pattern) (Obj Samples.experience_mutation) = None.
Proof.
  split.
  - apply (proj1 (Experience_schemas_disjoint 2025 uuid_pattern (Obj Samples.experience))).
    vm_compute. eauto.
  - apply (proj2 (Experience_schemas_disjoint 2025 uuid_pattern
                    (Obj Samples.experience_mutation))).
    vm_compute. eauto.
Defined.

Lemma ExperienceSchema_length_caps_witness :
  SchemaSpec.string_up_to 250 (get Samples.experience "company_name").
Proof.
  apply (ExperienceSchema_length_caps 2025 uuid_pattern Samples.experience).
  vm_compute. eauto.
Defined.

Lemma ExperienceSchema_later_year_witness :
  accepts (object (Experience.ExperienceSchema 2026 uuid_pattern)) (Obj Samples.experience).
Proof.
  apply (ExperienceSchema_later_year uuid_pattern 2025 2026); [lia|].
  vm_compute. eauto.
Defined.

Lemma month_of_cases_witness :
  EducationForm.month_of Samples.months (Str "March") = of_int (Z.of_nat 2 + 1).
Proof.
  apply (proj1 (proj2 (month_of_cases Samples.months (Str "March"))) "March" 2%nat).
  - reflexivity.
  - discriminate.
  - reflexivity.
  - intros [|[|j]] Hj; [discriminate | discriminate | lia].
Defined.

Lemma EducationForm_submit_payload_witness :
  ∃ p, calls (trace (EducationForm.submit Samples.months (fun _ => NaN)
                       (fun _ => Resolved Samples.new_education)
                       (Obj Cases.education_fields) Samples.world0).2) =
         calls (trace Samples.world0) ++ [(AddEducationToDB, Obj p)] ∧
       p !! "draft" = None.
Proof.
  destruct (EducationForm_submit_payload Samples.months (fun _ => NaN)
              (fun _ => Resolved Samples.new_education) Cases.education_fields Samples.world0)
    as (p & Hc & _ & _ & _ & _ & _ & _ & Hn).
  - vm_compute. eauto.
  - exists p. split; [exact Hc|]. apply Hn.
    intros H. apply list_elem_of_In in H. simpl in H.
    repeat (destruct H as [H|H]; [discriminate|]). exact H.
Defined.

Lemma long_name_not_submitted_witness :
  EducationForm.submit Samples.months (fun _ => NaN) (fun _ => Resolved Samples.new_education)
    (Obj {[ "institution_name" := Str Cases.long_name ]}) Samples.world0
  = (Return (), Samples.world0).
Proof.
  assert (L : (100 < str_length Cases.long_name)%nat)
    by (apply Nat.ltb_lt; vm_compute; reflexivity).
  apply (proj1 (long_name_not_submitted Samples.months (fun _ => NaN)
                  (fun _ => Resolved Samples.new_education)
                  {[ "institution_name" := Str Cases.long_name ]} Cases.long_name
                  Samples.world0 L)).
  vm_compute. reflexivity.
Defined.

Lemma signUpForWaitlist_sends_witness :
  Waitlist.signUpForWaitlist Samples.waitlist_shape "https://api.letraz.app"
    (fun _ => Resolved Cases.created_without_body) (fun _ => Resolved Null)
    "user@letraz.app" (of_int 1) Samples.world0
  = (Throw ZodError, Samples.world0).
Proof.
  apply (proj1 (signUpForWaitlist_sends Samples.waitlist_shape "https://api.letraz.app"
                  (fun _ => Resolved Cases.created_without_body) (fun _ => Resolved Null)
                  "user@letraz.app" (of_int 1) Samples.world0)).
  vm_compute. reflexivity.
Defined.

Lemma signUpForWaitlist_mail_before_body_witness :
  let r := Waitlist.signUpForWaitlist Samples.waitlist_shape "https://api.letraz.app"
             (fun _ => Resolved Cases.created_without_body) (fun _ => Resolved Null)
             "user@letraz.app" Undefined Samples.world0 in
  mails (trace r.2) =
    mails (trace Samples.world0) ++ [Waitlist.welcome_mail (Str "user@letraz.app")] ∧
  r.1 = Throw (Error "SyntaxError").
Proof.
  destruct (signUpForWaitlist_mail_before_body Samples.waitlist_shape "https://api.letraz.app"
              (fun _ => Resolved Cases.created_without_body) (fun _ => Resolved Null)
              "user@letraz.app" Undefined
              (<[ "referrer" := Undefined ]> {[ "email" := Str "user@letraz.app" ]})
              Cases.created_without_body Samples.world0)
    as (Hm & _ & Hb).
  - vm_compute. reflexivity.
  - reflexivity.
  - reflexivity.
  - split; [exact Hm | exact (Hb Null eq_refl)].
Defined.

Lemma POST_success_witness :
  let r := Announcement.POST (fun _ => Resolved []) "https://discord.letraz.app"
             "https://letraz.app" (fun _ => None)
             (fun _ => Resolved Cases.created_without_body) Samples.world0 in
  r.1 = Return (Announcement.NextResponse_json "Failed") ∧
  fetches (trace r.2) = fetches (trace Samples.world0).
Proof.
  apply (proj2 (POST_success (fun _ => Resolved []) "https://discord.letraz.app"
                  "https://letraz.app" (fun _ => None)
                  (fun _ => Resolved Cases.created_without_body) Samples.world0)).
  reflexivity.
Defined.

Lemma ResumeSectionSchema_type_free_witness :
  accepts (object (Resume.ResumeSectionSchema 2025 uuid_pattern (fun _ => None)))
    (Obj (<[ "type" := Str "Education" ]> Cases.section)).
Proof.
  apply (ResumeSectionSchema_type_free 2025 uuid_pattern (fun _ => None) Cases.section
           "Experience" "Education").
  - apply list_elem_of_In. simpl. auto.
  - vm_compute. eauto.
Defined.

Lemma ResumeSchema_sections_witness :
  ∃ o sections,
    Obj Cases.resume = Obj o ∧ get o "sections" = Arr sections ∧
    ∀ section, section ∈ sections →
      ∃ so, section = Obj so ∧
        (get so "type" = Str "Education" ∨ get so "type" = Str "Experience") ∧
        (accepts (fun _ => None) (get so "data") ∨
         ∃ data, get so "data" = Obj data ∧ Experience.date_parts 2025 data).
Proof.
  apply (ResumeSchema_sections 2025 uuid_pattern (fun _ => None) (fun v => Some v)
           (fun v => Some v) (Obj Cases.resume)).
  vm_compute. eauto.
Defined.

Lemma throttle_one_timeout_witness :
  (size (Throttle.pending
           (Throttle.throttled 100 [Str "b"] 20 20
              (Throttle.throttled 100 [Str "a"] 10 10 (Throttle.mount 0)))) ≤ 1)%nat.
Proof.
  apply (proj2 (throttle_one_timeout _
    (Throttle.reachable_step _ _
       (Throttle.reachable_step _ _ (Throttle.reachable_mount 0)
          (Throttle.step_call 100 [Str "a"] 10 10 _))
       (Throttle.step_call 100 [Str "b"] 20 20 _)))).
Defined.

Lemma throttle_call_witness :
  Throttle.ran (Throttle.throttled 100 [Str "a"] 150 151 (Throttle.mount 0)) =
    Throttle.ran (Throttle.mount 0) ++ [[Str "a"]] ∧
  Throttle.ran (Throttle.throttled 100 [Str "a"] 10 10 (Throttle.mount 0)) =
    Throttle.ran (Throttle.mount 0).
Proof.
  split.
  - apply (proj1 (throttle_call 100 [Str "a"] 150 151 (Throttle.mount 0)
                    (Throttle.reachable_mount 0))).
    simpl. lia.
  - apply (proj2 (throttle_call 100 [Str "a"] 10 10 (Throttle.mount 0)
                    (Throttle.reachable_mount 0))).
    simpl. lia.
Defined.

Lemma throttle_fire_witness :
  match Throttle.fire 1 100 (Throttle.throttled 100 [Str "a"] 10 10 (Throttle.mount 0)) with
  | Some h' =>
      ∃ timeout args,
        Throttle.pending (Throttle.throttled 100 [Str "a"] 10 10 (Throttle.mount 0)) !! 1%nat
          = Some (timeout, args) ∧
        Throttle.ran h' =
          Throttle.ran (Throttle.throttled 100 [Str "a"] 10 10 (Throttle.mount 0)) ++ [args] ∧
        Throttle.lastRan h' = 100 ∧ Throttle.pending h' = ∅
  | None =>
      Throttle.pending (Throttle.throttled 100 [Str "a"] 10 10 (Throttle.mount 0)) !! 1%nat = None
  end.
Proof.
  apply (throttle_fire 1 100 _
           (Throttle.reachable_step _ _ (Throttle.reachable_mount 0)
              (Throttle.step_call 100 [Str "a"] 10 10 _))).
Defined.
